(** * Synchronisation core of spotify-videoclips: connection bootstrap,
      track-change detection and player mirroring.

    The development embeds these parts of the repository:
    - [Bootstrap]: the two connection loops, [wait_for_connection] of
      [spotify_videos/__main__.py] (a blocking [while] loop) and
      [MainWindow.start] / [MainWindow.wait_for_connection] of
      [spotivids/gui/window.py] (a slot driven by a one-second [QTimer]);
    - [Track] and [Legacy]: [format_name], and the recursive [main] of
      [main.py] that polls for a new song;
    - [Player]: the [pause], [position] and [start_video] members of
      [VLCPlayer] and [MpvPlayer];
    - [Mirror]: the slots [change_video_status], [change_video_position]
      and [play_video] of [MainWindow], and the body of
      [play_videos_linux].

    Whatever lies outside the repository (the Spotify back ends, youtube-dl,
    the clock, libvlc, libmpv) is an oracle or an abstract interface; the
    calls made to it are recorded in traces. *)

From stdpp Require Import gmap strings list.
From Stdlib Require Import ZArith QArith Lia.

Local Open Scope Z_scope.

(** ** Traces *)

(** Number of entries of a trace that satisfy [p]. *)
Fixpoint count {A : Type} (p : A -> bool) (l : list A) : nat :=
  match l with
  | [] => 0%nat
  | x :: l' => ((if p x then 1 else 0) + count p l')%nat
  end.

(** ** Connection bootstrap *)

Module Bootstrap.

(** Outcome of one [connect()] call: it returns, or it raises
    [ConnectionNotReady]. *)
Inductive conn_result := Connected | NotReady.

(** Outcome of [time.sleep(1)]: it returns, or [KeyboardInterrupt] is raised
    while sleeping. *)
Inductive sleep_result := Slept | Interrupted.

(** *** The command-line loop *)

Module Cli.

(** What the loop does that is visible from outside, in order. *)
Inductive cli_event :=
| CliAttempt (r : conn_result)      (* connect() was called, with its outcome *)
| CliWaitingMsg                     (* print(msg) *)
| CliSleep (r : sleep_result)       (* time.sleep(1) *)
| CliTimedOut.                      (* print("Timed out") *)

(** The environment of one run: the outcome of the n-th [connect()] call and
    of the n-th [sleep], both counted from 0. *)
Record conn_env := {
  connect : nat -> conn_result;
  sleep : nat -> sleep_result
}.

Definition is_cli_attempt (e : cli_event) : bool :=
  match e with CliAttempt _ => true | _ => false end.

Definition is_cli_waiting (e : cli_event) : bool :=
  match e with CliWaitingMsg => true | _ => false end.

Definition is_cli_timed_out (e : cli_event) : bool :=
  match e with CliTimedOut => true | _ => false end.

(** The [while counter < attempts] loop. [calls] and [sleeps] count the
    oracle queries made so far; [fuel] bounds the number of iterations and
    [None] means it ran out. The trace is returned in program order. *)
Fixpoint wait_loop (env : conn_env) (attempts : Z) (fuel : nat)
    (counter : Z) (calls sleeps : nat) : option bool * list cli_event :=
  match fuel with
  | O => (None, [])
  | S fuel' =>
      if counter <? attempts then
        match connect env calls with
        | NotReady =>
            let shown := if counter =? 0 then [CliWaitingMsg] else [] in
            let counter' := counter + 1 in
            match sleep env sleeps with
            | Interrupted =>
                (* break: the else clause of the while is skipped *)
                (Some false,
                 CliAttempt NotReady :: shown ++ [CliSleep Interrupted])
            | Slept =>
                let '(r, tr) :=
                  wait_loop env attempts fuel' counter' (S calls) (S sleeps) in
                (r, CliAttempt NotReady :: shown ++ CliSleep Slept :: tr)
            end
        | Connected => (Some true, [CliAttempt Connected])
        end
      else
        (* the loop condition failed: else clause of the while *)
        (Some false, [CliTimedOut])
  end.

(** [wait_for_connection(connect, msg, attempts=30)]. One unit of fuel per
    possible iteration, and one for the final test of the condition. *)
Definition default_attempts : Z := 30.

Definition wait_for_connection (env : conn_env) (attempts : Z)
    : option bool * list cli_event :=
  wait_loop env attempts (S (Z.to_nat attempts)) 0 0%nat 0%nat.

End Cli.

(** *** The timer-driven loop of the window *)

Module Gui.

Inductive gui_event :=
| GuiShowWaiting                    (* loading label hidden, conn_label.show() *)
| GuiAttempt (r : conn_result)      (* self.conn_fn() was called *)
| GuiHandoff                        (* the success branch: labels removed,
                                       first video, signals, event loop *)
| GuiTimedOut                       (* print("Timed out waiting for Spotify") *)
| GuiExit (code : Z)                (* QCoreApplication.exit(code) *)
| GuiAttributeError.                (* self.conn_timer read after its del *)

(** The attribute [conn_timer]: absent after [del self.conn_timer], otherwise
    a timer that is active or stopped. *)
Inductive timer := TimerDeleted | TimerActive | TimerStopped.

Record window := {
  conn_counter : Z;
  conn_attempts : Z;
  conn_timer : timer;
  conn_calls : nat                  (* calls of conn_fn made so far *)
}.

(** [MainWindow.start]: the attributes it initialises. *)
Definition start : window :=
  {| conn_counter := 0; conn_attempts := 120;
     conn_timer := TimerActive; conn_calls := 0%nat |}.

(** [self.conn_timer.stop()]: an [AttributeError] when the attribute is gone. *)
Definition timer_stop (t : timer) : option timer :=
  match t with
  | TimerDeleted => None
  | TimerActive | TimerStopped => Some TimerStopped
  end.

(** One call of the slot [MainWindow.wait_for_connection]. The success
    branch is taken to run to its end; an exception of [conn_fn] other than
    [ConnectionNotReady] is not considered. *)
Definition wait_for_connection (conn_fn : nat -> conn_result) (w : window)
    : window * list gui_event :=
  let ev1 := if conn_counter w =? 1 then [GuiShowWaiting] else [] in
  let r := conn_fn (conn_calls w) in
  let '(t, ev2) :=
    match r with
    | NotReady => (conn_timer w, [GuiAttempt NotReady])
    | Connected =>
        (* self.conn_timer.stop(); ...; del self.conn_timer; ... *)
        (TimerDeleted, [GuiAttempt Connected; GuiHandoff])
    end in
  let counter' := conn_counter w + 1 in
  let '(t', ev3) :=
    if counter' >=? conn_attempts w then
      match timer_stop t with
      | Some t' => (t', [GuiTimedOut; GuiExit 1])
      | None => (t, [GuiTimedOut; GuiAttributeError])
      end
    else (t, []) in
  ({| conn_counter := counter'; conn_attempts := conn_attempts w;
      conn_timer := t'; conn_calls := S (conn_calls w) |},
   ev1 ++ ev2 ++ ev3).

(** The Qt event loop fires the slot once per second for as long as the timer
    is active. [fuel] bounds the number of ticks looked at. *)
Fixpoint run_timer (conn_fn : nat -> conn_result) (fuel : nat) (w : window)
    : window * list gui_event :=
  match fuel with
  | O => (w, [])
  | S fuel' =>
      match conn_timer w with
      | TimerActive =>
          let '(w1, ev) := wait_for_connection conn_fn w in
          let '(w2, tr) := run_timer conn_fn fuel' w1 in
          (w2, ev ++ tr)
      | _ => (w, [])
      end
  end.

Definition is_gui_attempt (e : gui_event) : bool :=
  match e with GuiAttempt _ => true | _ => false end.

Definition is_gui_waiting (e : gui_event) : bool :=
  match e with GuiShowWaiting => true | _ => false end.

Definition is_gui_timed_out (e : gui_event) : bool :=
  match e with GuiTimedOut => true | _ => false end.

Definition is_gui_handoff (e : gui_event) : bool :=
  match e with GuiHandoff => true | _ => false end.

End Gui.

(** Oracles used below. *)
Definition never_ready : nat -> conn_result := fun _ => NotReady.

(** Fails [k] times, then succeeds. *)
Definition ready_after (k : nat) : nat -> conn_result :=
  fun n => if (n <? k)%nat then NotReady else Connected.

Definition never_interrupted : nat -> sleep_result := fun _ => Slept.

(** Sleeps [k] times undisturbed, then the user interrupts. *)
Definition interrupted_at (k : nat) : nat -> sleep_result :=
  fun n => if (n =? k)%nat then Interrupted else Slept.

End Bootstrap.


(** ** Tracks and their display name *)

Module Track.

(** A track as the back ends report it. The artist can be [None] or empty
    (local files). *)
Record track := {
  artist : option string;
  title : string
}.

(** [format_name(artist, title)] of [spotify_videos/__main__.py]: the
    title alone when the artist is [None] or the empty string. *)
Definition format_name (artist : option string) (title : string) : string :=
  match artist with
  | None => title
  | Some a => if String.eqb a EmptyString then title else a +:+ " - " +:+ title
  end.

End Track.

(** ** The first entry point: [main.py] *)

Module Legacy.
Import Track.

Inductive event :=
| Download (name : string)                  (* youtube.download_video(name) *)
| PlayVideo (filename : string) (offset : Z) (* vlc.play_video(filename, offset) *)
| GetLyrics (t : track)                     (* spotify.get_lyrics(artist, title) *)
| GetName (t : track)                       (* spotify.get_name() and its result *)
| Changed (t : track).                      (* the break: a new song was found *)

(** The outside world of [main]: the helpers it imports from its [libs]
    package, taken as given, and the clock. [now n] is the n-th reading of
    [datetime.now()], in microseconds. *)
Record env := {
  format_name : option string -> string -> string;   (* spotify.format_name *)
  download_video : string -> string;                 (* youtube.download_video *)
  now : nat -> Z
}.

(** The name [main] computes for a song. *)
Definition name_of (e : env) (t : track) : string :=
  format_name e (artist t) (title t).

(** Mutable globals and oracle positions: the dictionary [videos] and the
    number of clock readings taken. *)
Record state := {
  videos : gmap string string;
  clock_reads : nat
}.

(** [int((t1 - t0).microseconds / 1000)]: [timedelta.microseconds] is the
    microsecond field of the normalised difference, between 0 and 999999. *)
Definition offset_ms (t0 t1 : Z) : Z := ((t1 - t0) mod 1000000) / 1000.

(** The part of [main] before its polling loop. *)
Definition main_prologue (e : env) (t : track) (st : state)
    : state * list event :=
  let name := name_of e t in
  let start_time := now e (clock_reads st) in
  let '(filename, videos', ev) :=
    match videos st !! name with
    | None =>
        let filename := download_video e name in
        (filename, <[name := filename]> (videos st), [Download name])
    | Some filename => (filename, videos st, [])
    end in
  let offset := offset_ms start_time (now e (S (clock_reads st))) in
  ({| videos := videos'; clock_reads := S (S (clock_reads st)) |},
   ev ++ [PlayVideo filename offset; GetLyrics t]).

(** The polling loop of [main] followed by the recursive call, over the
    successive results of [spotify.get_name()]. [name] is the name computed
    when the current call of [main] started. The run is cut where the list of
    observations ends. *)
Fixpoint main_loop (e : env) (name : string) (st : state) (obs : list track)
    : state * list event :=
  match obs with
  | [] => (st, [])
  | t :: obs' =>
      let new_name := name_of e t in
      if negb (String.eqb new_name name) then
        (* break, then main(artist, title) *)
        let '(st1, ev) := main_prologue e t st in
        let '(st2, tr) := main_loop e new_name st1 obs' in
        (st2, GetName t :: Changed t :: ev ++ tr)
      else
        let '(st2, tr) := main_loop e name st obs' in
        (st2, GetName t :: tr)
  end.

(** [main(artist, title)]. *)
Definition main (e : env) (t : track) (st : state) (obs : list track)
    : state * list event :=
  let '(st1, ev) := main_prologue e t st in
  let '(st2, tr) := main_loop e (name_of e t) st1 obs in
  (st2, ev ++ tr).






End Legacy.

(** ** The players *)

Module Player.

(** [CURRENT_PLATFORM], with a case for anything else. *)
Inductive platform := LINUX | BSD | WINDOWS | MACOS | OTHER.

(** The interface every player of the program offers: the properties
    [pause] and [position] with their getters and setters, and
    [start_video]. Getters return the state too, since reading goes
    through the native library. [position] is a number of milliseconds for
    VLC; the mpv getter of this version hands back mpv's own [playback_time]. *)
Class PlayerBase (P : Type) := {
  get_pause : P -> bool * P;
  set_pause : bool -> P -> P;
  get_position : P -> Q * P;
  set_position : Z -> P -> P;
  start_video : string -> bool -> P -> P
}.

(** *** VLC *)

(** Calls made on libvlc, as they are logged. *)
Inductive vlc_call :=
| VlcIsPlaying
| VlcPause
| VlcPlay
| VlcGetTime
| VlcSetTime (ms : Z)
| VlcSetXwindow
| VlcSetHwnd
| VlcSetNsobject
| VlcMediaNew (mrl : string)
| VlcGetMrl
| VlcSetMedia (mrl : string).

(** What the wrapper needs from a libvlc media player with state [V]. *)
Class LibVLC (V : Type) := {
  vlc_is_playing : V -> bool;
  vlc_pause : V -> V;
  vlc_play : V -> V;
  vlc_get_time : V -> Z;
  vlc_set_time : Z -> V -> V;
  vlc_set_media : string -> V -> V
}.

Record VLCPlayer (V : Type) := {
  vlc_platform : platform;
  vlc_native : V;
  vlc_log : list vlc_call
}.
Arguments vlc_platform {V} _.
Arguments vlc_native {V} _.
Arguments vlc_log {V} _.

Section VLC.
Context {V : Type} `{LibVLC V}.

Definition vlc_do (c : vlc_call) (f : V -> V) (p : VLCPlayer V) : VLCPlayer V :=
  {| vlc_platform := vlc_platform p;
     vlc_native := f (vlc_native p);
     vlc_log := vlc_log p ++ [c] |}.

(** [pause] getter: [not self._player.is_playing()]. *)
Definition vlc_get_pause (p : VLCPlayer V) : bool * VLCPlayer V :=
  (negb (vlc_is_playing (vlc_native p)), vlc_do VlcIsPlaying id p).

(** [pause] setter. *)
Definition vlc_set_pause (do_pause : bool) (p : VLCPlayer V) : VLCPlayer V :=
  let '(is_paused, p1) := vlc_get_pause p in
  if do_pause && negb is_paused then vlc_do VlcPause vlc_pause p1
  else if negb do_pause && is_paused then vlc_do VlcPlay vlc_play p1
  else p1.

(** [position] getter: [self._player.get_time()]. *)
Definition vlc_get_position (p : VLCPlayer V) : Q * VLCPlayer V :=
  (inject_Z (vlc_get_time (vlc_native p)), vlc_do VlcGetTime id p).

(** [position] setter: [self._player.set_time(ms)]. *)
Definition vlc_set_position (ms : Z) (p : VLCPlayer V) : VLCPlayer V :=
  vlc_do (VlcSetTime ms) (vlc_set_time ms) p.

(** [start_video(media, is_playing)]. *)
Definition vlc_start_video (media : string) (is_playing : bool)
    (p : VLCPlayer V) : VLCPlayer V :=
  let p1 :=
    match vlc_platform p with
    | LINUX | BSD => vlc_do VlcSetXwindow id p
    | WINDOWS => vlc_do VlcSetHwnd id p
    | MACOS => vlc_do VlcSetNsobject id p
    | OTHER => p
    end in
  let p2 := vlc_do (VlcMediaNew media) id p1 in
  let p3 := vlc_do VlcGetMrl id p2 in
  let p4 := vlc_do (VlcSetMedia media) (vlc_set_media media) p3 in
  (* VLC starts paused *)
  if is_playing then vlc_set_pause false p4 else p4.

#[export] Instance VLCPlayer_PlayerBase : PlayerBase (VLCPlayer V) := {
  get_pause := vlc_get_pause;
  set_pause := vlc_set_pause;
  get_position := vlc_get_position;
  set_position := vlc_set_position;
  start_video := vlc_start_video
}.

End VLC.

(** *** mpv *)

Inductive mpv_call :=
| MpvGetPause
| MpvSetPause (b : bool)
| MpvPlaybackTime
| MpvWaitForProperty (name : string)
| MpvSeekAbsolute (seconds : Q)
| MpvPlay (url : string).

(** What the wrapper needs from python-mpv. [mpv_wait_for_property] is the
    state in which the blocking call returns. *)
Class LibMPV (M : Type) := {
  mpv_get_pause : M -> bool;
  mpv_set_pause : bool -> M -> M;
  mpv_playback_time : M -> option Q;
  mpv_wait_for_property : string -> M -> M;
  mpv_seek : Q -> M -> M;
  mpv_play : string -> M -> M
}.

Record MpvPlayer (M : Type) := {
  mpv_native : M;
  mpv_log : list mpv_call
}.
Arguments mpv_native {M} _.
Arguments mpv_log {M} _.

Section Mpv.
Context {M : Type} `{LibMPV M}.

Definition mpv_do (c : mpv_call) (f : M -> M) (p : MpvPlayer M) : MpvPlayer M :=
  {| mpv_native := f (mpv_native p); mpv_log := mpv_log p ++ [c] |}.

(** [pause] getter: [self._mpv.pause]. *)
Definition mpv_player_get_pause (p : MpvPlayer M) : bool * MpvPlayer M :=
  (mpv_get_pause (mpv_native p), mpv_do MpvGetPause id p).

(** [pause] setter: [self._mpv.pause = do_pause]. *)
Definition mpv_player_set_pause (do_pause : bool) (p : MpvPlayer M)
    : MpvPlayer M :=
  mpv_do (MpvSetPause do_pause) (mpv_set_pause do_pause) p.

(** [position] getter: [time if time is not None else 0]. *)
Definition mpv_player_get_position (p : MpvPlayer M) : Q * MpvPlayer M :=
  (match mpv_playback_time (mpv_native p) with
   | Some time => time
   | None => inject_Z 0
   end, mpv_do MpvPlaybackTime id p).

(** [position] setter: wait for [seekable], then
    [seek(ms / 1000, reference='absolute')]. *)
Definition mpv_player_set_position (ms : Z) (p : MpvPlayer M) : MpvPlayer M :=
  let p1 := mpv_do (MpvWaitForProperty "seekable")
                   (mpv_wait_for_property "seekable") p in
  mpv_do (MpvSeekAbsolute (ms # 1000)) (mpv_seek (ms # 1000)) p1.

(** [start_video(url, is_playing)]. *)
Definition mpv_player_start_video (url : string) (is_playing : bool)
    (p : MpvPlayer M) : MpvPlayer M :=
  let p1 := mpv_do (MpvPlay url) (mpv_play url) p in
  (* Mpv starts automatically playing the video *)
  if negb is_playing then mpv_player_set_pause true p1 else p1.

#[export] Instance MpvPlayer_PlayerBase : PlayerBase (MpvPlayer M) := {
  get_pause := mpv_player_get_pause;
  set_pause := mpv_player_set_pause;
  get_position := mpv_player_get_position;
  set_position := mpv_player_set_position;
  start_video := mpv_player_start_video
}.

End Mpv.

(** The call that hands the window over to libvlc, by platform. *)
Definition window_calls (pf : platform) : list vlc_call :=
  match pf with
  | LINUX | BSD => [VlcSetXwindow]
  | WINDOWS => [VlcSetHwnd]
  | MACOS => [VlcSetNsobject]
  | OTHER => []
  end.

Definition is_vlc_pause_or_play (c : vlc_call) : bool :=
  match c with VlcPause | VlcPlay => true | _ => false end.

Definition is_vlc_pause (c : vlc_call) : bool :=
  match c with VlcPause => true | _ => false end.


(** *** Stand-ins for the native libraries

    Two small players to run the wrappers on. The VLC one is not playing
    once [set_media] was called, until [play()]. The mpv one keeps its
    [pause] property when a file is loaded, as mpv does: [play] changes the
    file, not the property. *)

Inductive vlc_status := NothingSpecial | Playing | Paused.

Record vlc_double := {
  d_status : vlc_status;
  d_media : option string;
  d_time : Z
}.

#[export] Instance vlc_double_LibVLC : LibVLC vlc_double := {
  vlc_is_playing d := match d_status d with Playing => true | _ => false end;
  vlc_pause d :=
    {| d_status := match d_status d with
                   | Playing => Paused
                   | Paused => Playing
                   | NothingSpecial => NothingSpecial
                   end;
       d_media := d_media d; d_time := d_time d |};
  vlc_play d :=
    {| d_status := match d_media d with Some _ => Playing | None => d_status d end;
       d_media := d_media d; d_time := d_time d |};
  vlc_get_time d := d_time d;
  vlc_set_time ms d :=
    {| d_status := d_status d; d_media := d_media d; d_time := ms |};
  vlc_set_media m d :=
    {| d_status := NothingSpecial; d_media := Some m; d_time := 0 |}
}.

Record mpv_double := {
  m_pause : bool;
  m_path : option string;
  m_seekable : bool;
  m_time : option Q
}.

#[export] Instance mpv_double_LibMPV : LibMPV mpv_double := {
  mpv_get_pause d := m_pause d;
  mpv_set_pause b d :=
    {| m_pause := b; m_path := m_path d;
       m_seekable := m_seekable d; m_time := m_time d |};
  mpv_playback_time d := m_time d;
  mpv_wait_for_property _ d :=
    {| m_pause := m_pause d; m_path := m_path d;
       m_seekable := true; m_time := m_time d |};
  mpv_seek s d :=
    {| m_pause := m_pause d; m_path := m_path d;
       m_seekable := m_seekable d; m_time := Some s |};
  mpv_play url d :=
    {| m_pause := m_pause d; m_path := Some url;
       m_seekable := false; m_time := None |}
}.

Definition new_vlc (pf : platform) : VLCPlayer vlc_double :=
  {| vlc_platform := pf;
     vlc_native := {| d_status := NothingSpecial; d_media := None; d_time := 0 |};
     vlc_log := [] |}.

Definition new_mpv : MpvPlayer mpv_double :=
  {| mpv_native := {| m_pause := false; m_path := None;
                      m_seekable := false; m_time := None |};
     mpv_log := [] |}.

End Player.

(** ** The window slots and the command-line loop body *)

Module Mirror.
Import Track Player.

(** Exceptions that reach the code embedded here. *)
Inductive exn :=
| DownloadError        (* raised inside youtube-dl *)
| IndexError.          (* info['entries'][0] on an empty list *)

(** How a call ends: it returns, or an exception leaves it. Both carry the
    state reached. *)
Inductive outcome (A : Type) :=
| Returned (a : A)
| Raised (e : exn) (a : A).
Arguments Returned {A} a.
Arguments Raised {A} e a.

Definition final_state {A : Type} (o : outcome A) : A :=
  match o with Returned a | Raised _ a => a end.

Definition has_raised {A : Type} (o : outcome A) : bool :=
  match o with Returned _ => false | Raised _ _ => true end.

(** What is asked of the collaborators, in order. *)
Inductive mirror_event :=
| GetUrl (artist : option string) (title : string)
| StartVideo (url : string) (is_playing : bool)
| SetPause (do_pause : bool)
| GetPosition
| SetPosition (ms : Z)
| Lyrics.

Definition is_player_action (ev : mirror_event) : bool :=
  match ev with
  | StartVideo _ _ | SetPause _ | GetPosition | SetPosition _ => true
  | GetUrl _ _ | Lyrics => false
  end.

Definition is_get_url (ev : mirror_event) : bool :=
  match ev with GetUrl _ _ => true | _ => false end.

Definition is_set_position (ev : mirror_event) : bool :=
  match ev with SetPosition _ => true | _ => false end.

Definition is_get_position (ev : mirror_event) : bool :=
  match ev with GetPosition => true | _ => false end.

Definition is_start_video (ev : mirror_event) : bool :=
  match ev with StartVideo _ _ => true | _ => false end.

(** The attributes of the API object that are read: [position] is [None]
    when the property raises [NotImplementedError]. *)
Record api := {
  api_track : track;
  api_is_playing : bool;
  api_position : option Z
}.

(** *** The window *)

Record window (P : Type) := {
  player : P;
  trace : list mirror_event
}.
Arguments player {P} _.
Arguments trace {P} _.

Section Window.
Context {P : Type} `{PlayerBase P}.

Definition on_player (ev : mirror_event) (f : P -> P) (w : window P) : window P :=
  {| player := f (player w); trace := trace w ++ [ev] |}.

(** [MainWindow.change_video_status]. *)
Definition change_video_status (is_playing : bool) (w : window P) : window P :=
  on_player (SetPause (negb is_playing)) (set_pause (negb is_playing)) w.

(** [MainWindow.change_video_position]. *)
Definition change_video_position (ms : Z) (w : window P) : window P :=
  on_player (SetPosition ms) (set_position ms) w.

(** [MainWindow.play_video]. [youtube_get_url] stands for
    [self.youtube.get_url], which returns a URL or raises; [lyrics] is
    [self.config.lyrics]. *)
Definition play_video (youtube_get_url : option string -> string -> exn + string)
    (lyrics : bool) (a : api) (w : window P) : outcome (window P) :=
  let t := api_track a in
  let w0 := on_player (GetUrl (artist t) (title t)) id w in
  match youtube_get_url (artist t) (title t) with
  | inl e => Raised e w0
  | inr url =>
      let w1 := on_player (StartVideo url (api_is_playing a))
                          (start_video url (api_is_playing a)) w0 in
      let w2 :=
        match api_position a with
        | Some ms => on_player (SetPosition ms) (set_position ms) w1
        | None => (* except NotImplementedError *)
            on_player (SetPosition 0) (set_position 0) w1
        end in
      Returned (if lyrics then on_player Lyrics id w2 else w2)
  end.

End Window.

(** *** The command-line program *)

(** youtube-dl and the clock. [extract_info name] is [None] when youtube-dl
    raises, otherwise the URLs of [info['entries']]. [time n] is the n-th
    reading of [time.time()], in seconds. *)
Record cli_env := {
  extract_info : string -> option (list string);
  time : nat -> Q
}.

(** [get_url(artist, title)] of [spotify_videos/__main__.py]. *)
Definition get_url (e : cli_env) (artist : option string) (title : string)
    : exn + string :=
  let name := "ytsearch:'" +:+ format_name artist title +:+ " Official Video'" in
  match extract_info e name with
  | None => inl DownloadError
  | Some [] => inl IndexError
  | Some (url :: _) => inr url
  end.

(** Python's [int] on a number: truncation towards zero. *)
Definition py_int (q : Q) : Z := Z.quot (Qnum q) (Z.pos (Qden q)).

(** [int((time.time() - start_time) * 1000)]. *)
Definition elapsed_ms (start_time t : Q) : Z :=
  py_int ((t - start_time) * inject_Z 1000)%Q.

Record cli (P : Type) := {
  cli_player : P;
  cli_trace : list mirror_event;
  cli_time_reads : nat
}.
Arguments cli_player {P} _.
Arguments cli_trace {P} _.
Arguments cli_time_reads {P} _.

Section CommandLine.
Context {P : Type} `{PlayerBase P}.

Definition cli_on_player (ev : mirror_event) (f : P -> P) (s : cli P) : cli P :=
  {| cli_player := f (cli_player s); cli_trace := cli_trace s ++ [ev];
     cli_time_reads := cli_time_reads s |}.

Definition read_time (e : cli_env) (s : cli P) : Q * cli P :=
  (time e (cli_time_reads s),
   {| cli_player := cli_player s; cli_trace := cli_trace s;
      cli_time_reads := S (cli_time_reads s) |}).

(** The player after [n] readings of its position. *)
Fixpoint after_reads (n : nat) (p : P) : P :=
  match n with
  | O => p
  | S n' => after_reads n' (snd (get_position p))
  end.

(** [while player.position == 0: pass]. [None] when [fuel] readings were
    all zero. *)
Fixpoint wait_for_video (fuel : nat) (s : cli P) : option (cli P) :=
  match fuel with
  | O => None
  | S fuel' =>
      let '(pos, p') := get_position (cli_player s) in
      let s' := cli_on_player GetPosition (fun _ => p') s in
      if Qeq_bool pos (inject_Z 0) then wait_for_video fuel' s' else Some s'
  end.

(** One round of the [while True] of [play_videos_linux], up to
    [spotify.wait()]. [None] when the inner loop did not end within [fuel]
    readings. *)
Definition play_videos_linux_round (e : cli_env) (lyrics : bool) (fuel : nat)
    (a : api) (s : cli P) : option (outcome (cli P)) :=
  let '(start_time, s0) := read_time e s in
  let t := api_track a in
  let s1 := cli_on_player (GetUrl (artist t) (title t)) id s0 in
  match get_url e (artist t) (title t) with
  | inl ex => Some (Raised ex s1)
  | inr url =>
      let is_playing := api_is_playing a in
      let s2 := cli_on_player (StartVideo url is_playing)
                              (start_video url is_playing) s1 in
      let after_offset :=
        if is_playing then
          match wait_for_video fuel s2 with
          | None => None
          | Some s3 =>
              let '(now, s4) := read_time e s3 in
              let offset := elapsed_ms start_time now in
              Some (cli_on_player (SetPosition offset) (set_position offset) s4)
          end
        else Some s2 in
      match after_offset with
      | None => None
      | Some s5 => Some (Returned (if lyrics then cli_on_player Lyrics id s5 else s5))
      end
  end.

End CommandLine.

(** A player whose position readings are scripted: it answers the readings
    of [script] one after the other, then 0 for ever. *)
Record scripted := {
  script : list Q;
  seeks : list Z;
  paused : bool
}.

#[export] Instance scripted_PlayerBase : PlayerBase scripted := {
  get_pause p := (paused p, p);
  set_pause b p := {| script := script p; seeks := seeks p; paused := b |};
  get_position p :=
    match script p with
    | [] => (inject_Z 0, p)
    | q :: rest => (q, {| script := rest; seeks := seeks p; paused := paused p |})
    end;
  set_position ms p :=
    {| script := script p; seeks := seeks p ++ [ms]; paused := paused p |};
  start_video _ is_playing p :=
    {| script := script p; seeks := seeks p; paused := negb is_playing |}
}.

(** Sample collaborators to run the slots and the loop on. *)
Definition song : api :=
  {| api_track := {| artist := Some "A"; title := "B" |};
     api_is_playing := true;
     api_position := None |}.

Definition paused_song : api :=
  {| api_track := {| artist := Some "A"; title := "B" |};
     api_is_playing := false;
     api_position := None |}.

Definition youtube_found : option string -> string -> exn + string :=
  fun _ _ => inr "https://video/ab".

Definition youtube_fails : option string -> string -> exn + string :=
  fun _ _ => inl DownloadError.

(** A clock that advances by a quarter of a second per reading. *)
Definition quarter_clock : nat -> Q := fun n => (Z.of_nat n * 250 # 1000)%Q.

Definition cli_found : cli_env :=
  {| extract_info := fun _ => Some ["https://video/ab"]; time := quarter_clock |}.

Definition cli_no_entries : cli_env :=
  {| extract_info := fun _ => Some []; time := quarter_clock |}.

Definition new_window {P : Type} (p : P) : window P :=
  {| player := p; trace := [] |}.

Definition new_cli {P : Type} (p : P) : cli P :=
  {| cli_player := p; cli_trace := []; cli_time_reads := 0 |}.

(** A player that reads position 0 three times before the video starts. *)
Definition slow_player : scripted :=
  {| script := [inject_Z 0; inject_Z 0; inject_Z 0; (1 # 10)%Q];
     seeks := []; paused := true |}.

End Mirror.


(** ** Readings of the traces *)

Module Readings.
Import Track.

Definition is_cli_sleep (e : Bootstrap.Cli.cli_event) : bool :=
  match e with Bootstrap.Cli.CliSleep _ => true | _ => false end.

(** The last entry of a trace is a successful attempt. *)
Definition ends_connected (tr : list Bootstrap.Cli.cli_event) : bool :=
  match last tr with
  | Some (Bootstrap.Cli.CliAttempt Bootstrap.Connected) => true
  | _ => false
  end.

(** [Download n] events of the first entry point. *)
Definition is_download_of (n : string) (ev : Legacy.event) : bool :=
  match ev with
  | Legacy.Download m => String.eqb m n
  | _ => false
  end.


Fixpoint played_offsets (tr : list Legacy.event) : list Z :=
  match tr with
  | [] => []
  | Legacy.PlayVideo _ o :: tr' => o :: played_offsets tr'
  | _ :: tr' => played_offsets tr'
  end.



End Readings.

(** ** The command-line program without the DBus back end *)

Module Swspotify.
Import Track Player Mirror.

Definition is_set_pause (ev : mirror_event) : bool :=
  match ev with SetPause _ => true | _ => false end.

(** A video started as paused. *)
Definition is_start_paused (ev : mirror_event) : bool :=
  match ev with StartVideo _ false => true | _ => false end.

Definition resolves (e : cli_env) (t : track) : bool :=
  match get_url e (artist t) (title t) with
  | inr _ => true
  | inl _ => false
  end.

Section Loop.
Context {P : Type} {HP : PlayerBase P}.

(** One round of the [while True] of [play_videos_swspotify], up to
    [spotify.wait()]: [start_video] is called with its default
    [is_playing=True]. *)
Definition play_videos_swspotify_round (e : cli_env) (lyrics : bool)
    (t : track) (s : cli P) : outcome (cli P) :=
  let s1 := cli_on_player (GetUrl (artist t) (title t)) id s in
  match get_url e (artist t) (title t) with
  | inl ex => Raised ex s1
  | inr url =>
      let s2 := cli_on_player (StartVideo url true) (start_video url true) s1 in
      Returned (if lyrics then cli_on_player Lyrics id s2 else s2)
  end.

(** The [while True] loop over the songs that [spotify.wait()] brings, the
    first one being the song found at connection. An exception leaves the
    loop; the run is cut where the list ends. *)
Fixpoint play_videos_swspotify_loop (e : cli_env) (lyrics : bool)
    (songs : list track) (s : cli P) : outcome (cli P) :=
  match songs with
  | [] => Returned s
  | t :: songs' =>
      match play_videos_swspotify_round e lyrics t s with
      | Raised ex s' => Raised ex s'
      | Returned s' => play_videos_swspotify_loop e lyrics songs' s'
      end
  end.

(** [play_videos_swspotify(player)]: the connection loop with its default
    number of attempts, then the play loop. *)
Definition play_videos_swspotify (c : Bootstrap.Cli.conn_env) (e : cli_env)
    (lyrics : bool) (songs : list track) (s : cli P)
    : list Bootstrap.Cli.cli_event * outcome (cli P) :=
  let '(r, tr) :=
    Bootstrap.Cli.wait_for_connection c Bootstrap.Cli.default_attempts in
  match r with
  | Some true => (tr, play_videos_swspotify_loop e lyrics songs s)
  | _ => (* if not wait_for_connection(...): return *) (tr, Returned s)
  end.

End Loop.

(** A resolver that finds a video for every song but "A - C". *)
Definition cli_all_but_one : cli_env :=
  {| extract_info := fun name =>
       if String.eqb name "ytsearch:'A - C Official Video'" then Some []
       else Some ["https://video/" +:+ name];
     time := quarter_clock |}.

End Swspotify.

(** ** The window: connection slot and signals together *)

Module MainWindow.
Import Track Player Mirror Bootstrap.

(** The signals of the API object. [NewSong] carries the attributes the
    API has when [play_video] reads them. *)
Inductive signal :=
| NewSong (a : api)
| PositionSignal (ms : Z)
| StatusSignal (is_playing : bool).

Record main_window (P : Type) := {
  conn : Gui.window;            (* the attributes set by [start] *)
  view : window P;              (* the player and what was asked of it *)
  signals_connected : bool;     (* the three signals are tied to their slots *)
  event_loop : option Z         (* interval of the event loop, once started *)
}.
Arguments conn {P} _.
Arguments view {P} _.
Arguments signals_connected {P} _.
Arguments event_loop {P} _.

Section Slots.
Context {P : Type} {HP : PlayerBase P}.
Variable conn_fn : nat -> conn_result.
Variable youtube_get_url : option string -> string -> exn + string.
Variable lyrics : bool.

(** [MainWindow.start] on a window that has its player. *)
Definition start (p : P) : main_window P :=
  {| conn := Gui.start; view := new_window p;
     signals_connected := false; event_loop := None |}.

(** One call of the slot [MainWindow.wait_for_connection], with the
    success branch spelled out: [a] is what the API reports when the first
    video is played, [event_loop_interval] the argument given to [start].
    An exception of [play_video] leaves the slot before the signals are
    connected and before the counter moves. *)
Definition wait_for_connection (event_loop_interval : option Z) (a : api)
    (mw : main_window P) : outcome (main_window P) * list Gui.gui_event :=
  let w := conn mw in
  let ev1 := if Gui.conn_counter w =? 1 then [Gui.GuiShowWaiting] else [] in
  let finish (t : Gui.timer) (v : window P) (sc : bool) (el : option Z)
             (ev2 : list Gui.gui_event) :=
    let counter' := Gui.conn_counter w + 1 in
    let '(t', ev3) :=
      if counter' >=? Gui.conn_attempts w then
        match Gui.timer_stop t with
        | Some t' => (t', [Gui.GuiTimedOut; Gui.GuiExit 1])
        | None => (t, [Gui.GuiTimedOut; Gui.GuiAttributeError])
        end
      else (t, []) in
    (Returned
       {| conn := {| Gui.conn_counter := counter';
                     Gui.conn_attempts := Gui.conn_attempts w;
                     Gui.conn_timer := t';
                     Gui.conn_calls := S (Gui.conn_calls w) |};
          view := v; signals_connected := sc; event_loop := el |},
     ev1 ++ ev2 ++ ev3) in
  match conn_fn (Gui.conn_calls w) with
  | NotReady =>
      finish (Gui.conn_timer w) (view mw) (signals_connected mw)
             (event_loop mw) [Gui.GuiAttempt NotReady]
  | Connected =>
      (* the timer is stopped and deleted, then the first video is played *)
      match play_video youtube_get_url lyrics a (view mw) with
      | Raised ex v =>
          (Raised ex
             {| conn := {| Gui.conn_counter := Gui.conn_counter w;
                           Gui.conn_attempts := Gui.conn_attempts w;
                           Gui.conn_timer := Gui.TimerDeleted;
                           Gui.conn_calls := S (Gui.conn_calls w) |};
                view := v; signals_connected := signals_connected mw;
                event_loop := event_loop mw |},
           ev1 ++ [Gui.GuiAttempt Connected])
      | Returned v =>
          finish Gui.TimerDeleted v true
                 (match event_loop_interval with
                  | Some ms => Some ms
                  | None => event_loop mw
                  end)
                 [Gui.GuiAttempt Connected; Gui.GuiHandoff]
      end
  end.

(** A signal reaches its slot only once the signals are connected. *)
Definition deliver (sig : signal) (mw : main_window P)
    : outcome (main_window P) :=
  let with_view (v : window P) :=
    {| conn := conn mw; view := v;
       signals_connected := signals_connected mw;
       event_loop := event_loop mw |} in
  if signals_connected mw then
    match sig with
    | NewSong a =>
        match play_video youtube_get_url lyrics a (view mw) with
        | Returned v => Returned (with_view v)
        | Raised ex v => Raised ex (with_view v)
        end
    | PositionSignal ms => Returned (with_view (change_video_position ms (view mw)))
    | StatusSignal b => Returned (with_view (change_video_status b (view mw)))
    end
  else Returned mw.

(** The signals one after the other. An exception that leaves a slot is
    reported by Qt and the next signal is served; the exceptions are
    collected. *)
Fixpoint deliver_all (sigs : list signal) (mw : main_window P)
    : main_window P * list exn :=
  match sigs with
  | [] => (mw, [])
  | sig :: sigs' =>
      match deliver sig mw with
      | Returned mw' => deliver_all sigs' mw'
      | Raised ex mw' =>
          let '(mw'', exs) := deliver_all sigs' mw' in (mw'', ex :: exs)
      end
  end.

End Slots.

Definition is_new_song (sig : signal) : bool :=
  match sig with NewSong _ => true | _ => false end.

End MainWindow.

(** ** The build script *)

Module Build.

Definition IGNORED_FILES : list string := [".git"; ".venv"; "target"].

Definition ALL_OS : list string := ["Linux"; "Windows"; "Darwin"].

Definition APP_NAME : string := "Vidify".

Definition SUFFIXES : gmap string string :=
  <["Linux" := "linux"]> (<["Windows" := "win32"]> (<["Darwin" := "macos"]> ∅)).

Inductive build_exn :=
| VersionNotFound             (* Exception("Couldn't find `Cargo.toml` version") *)
| IndexError                  (* split[2] on a line with fewer tokens *)
| KeyError (key : string).    (* SUFFIXES[cur_os] *)

(** [x in l] for a list of strings. *)
Definition in_list (x : string) (l : list string) : bool :=
  existsb (String.eqb x) l.

Definition quote : string := String (Ascii.ascii_of_nat 34) EmptyString.

(** [s[1:]] and [s[:-1]]. *)
Definition drop_first (s : string) : string :=
  match s with
  | EmptyString => EmptyString
  | String _ rest => rest
  end.

Fixpoint drop_last (s : string) : string :=
  match s with
  | EmptyString => EmptyString
  | String _ EmptyString => EmptyString
  | String c rest => String c (drop_last rest)
  end.

(** [get_version()], over the lines of [Cargo.toml]. [split] is
    [str.split] without arguments. *)
Fixpoint get_version (split : string -> list string) (lines : list string)
    : build_exn + string :=
  match lines with
  | [] => inl VersionNotFound
  | line :: lines' =>
      match split line with
      | tok0 :: toks =>
          if String.eqb tok0 "version" then
            match toks with
            | _ :: tok2 :: _ => inr (drop_first (drop_last tok2))
            | _ => inl IndexError
            end
          else get_version split lines'
      | [] => get_version split lines'
      end
  end.

(** [format_release_name()], given [platform.system()] and
    [platform.machine()]. *)
Definition format_release_name (split : string -> list string)
    (lines : list string) (cur_os machine : string) : build_exn + string :=
  match get_version split lines with
  | inl ex => inl ex
  | inr version =>
      match SUFFIXES !! cur_os with
      | None => inl (KeyError cur_os)
      | Some suffix =>
          inr ("vidify-" +:+ version +:+ "_" +:+ suffix +:+ "_" +:+ machine)
      end
  end.

(** [os.path.join] of two components, as [posixpath] defines it. *)
Definition slash : Ascii.ascii := Ascii.ascii_of_nat 47.

Definition starts_with_slash (s : string) : bool :=
  match s with
  | String c _ => Ascii.eqb c slash
  | EmptyString => false
  end.

Fixpoint ends_with_slash (s : string) : bool :=
  match s with
  | EmptyString => false
  | String c EmptyString => Ascii.eqb c slash
  | String _ rest => ends_with_slash rest
  end.

Definition path_join (a b : string) : string :=
  if starts_with_slash b then b
  else if String.eqb a EmptyString || ends_with_slash a then a +:+ b
  else a +:+ "/" +:+ b.

(** [get_ignored(path, filenames)]. *)
Fixpoint get_ignored (path : string) (filenames : list string) : list string :=
  match filenames with
  | [] => []
  | filename :: rest =>
      if in_list (path_join path filename) IGNORED_FILES
      then filename :: get_ignored path rest
      else get_ignored path rest
  end.

(** [filter_os_args(args)], given [platform.system()]; the dictionary is
    listed in insertion order. *)
Fixpoint filter_os_args (cur_os : string) (args : list (string * list string))
    : list string :=
  match args with
  | [] => []
  | (val, supp_os) :: rest =>
      if in_list cur_os supp_os then val :: filter_os_args cur_os rest
      else filter_os_args cur_os rest
  end.

(** A string has a slash somewhere. *)
Fixpoint has_slash (s : string) : bool :=
  match s with
  | EmptyString => false
  | String c rest => Ascii.eqb c slash || has_slash rest
  end.

(** [str.split()] on ASCII text: the runs of characters other than blanks. *)
Definition is_space (c : Ascii.ascii) : bool :=
  let n := Ascii.nat_of_ascii c in
  (n =? 32)%nat || ((9 <=? n)%nat && (n <=? 13)%nat)
  || ((28 <=? n)%nat && (n <=? 31)%nat).

Fixpoint split_from (word : string) (s : string) : list string :=
  match s with
  | EmptyString =>
      match word with EmptyString => [] | _ => [word] end
  | String c rest =>
      if is_space c then
        match word with
        | EmptyString => split_from EmptyString rest
        | _ => word :: split_from EmptyString rest
        end
      else split_from (word +:+ String c EmptyString) rest
  end.

Definition split_ascii (s : string) : list string := split_from EmptyString s.

(** The first lines of a [Cargo.toml]. *)
Definition cargo_lines : list string :=
  ["[package]"; "name = " +:+ quote +:+ "vidify" +:+ quote;
   "version = " +:+ quote +:+ "2.2.6" +:+ quote; "edition = 2018"].

End Build.

(** * Properties *)

Lemma count_app {A : Type} (p : A -> bool) (l1 l2 : list A) :
  count p (l1 ++ l2) = (count p l1 + count p l2)%nat.
Proof.
  induction l1 as [|x l1 IH]; simpl; [reflexivity|].
  rewrite IH. lia.
Qed.

Lemma count_repeat_true {A : Type} (p : A -> bool) (x : A) (n : nat) :
  p x = true -> count p (repeat x n) = n.
Proof.
  intros Hp. induction n as [|n IH]; simpl; [reflexivity|].
  rewrite Hp, IH. reflexivity.
Qed.

(** ** Bootstrap: the command-line loop *)

Section CliLoop.
Import Bootstrap Bootstrap.Cli Bootstrap.Gui.
Variable env : conn_env.
Variable attempts : Z.

(** Past the first failure the waiting message is not printed any more. *)
Lemma wait_loop_no_waiting (fuel : nat) :
  forall counter calls sleeps,
    0 < counter ->
    count is_cli_waiting
      (snd (wait_loop env attempts fuel counter calls sleeps)) = 0%nat.
Proof.
  induction fuel as [|fuel IH]; intros counter calls sleeps Hpos; simpl.
  - reflexivity.
  - destruct (counter <? attempts); [|reflexivity].
    destruct (connect env calls); [reflexivity|].
    destruct (Z.eqb_spec counter 0) as [Hz|_]; [lia|].
    destruct (sleep env sleeps); [|reflexivity].
    specialize (IH (counter + 1) (S calls) (S sleeps)).
    destruct (wait_loop env attempts fuel (counter + 1) (S calls) (S sleeps))
      as [r tr].
    simpl in *. apply IH. lia.
Qed.

(** [j] failed attempts in a row, none of them interrupted and none the
    last one allowed, are a prefix of the run; the loop then goes on from
    the counter they reach. *)
Lemma wait_loop_prefix (j : nat) :
  forall counter calls sleeps,
    (forall n, (n < j)%nat -> connect env (calls + n) = NotReady) ->
    (forall n, (n < j)%nat -> sleep env (sleeps + n) = Slept) ->
    counter + Z.of_nat j <= attempts ->
    exists pre,
      (forall fuel,
         wait_loop env attempts (j + fuel) counter calls sleeps =
         (fst (wait_loop env attempts fuel (counter + Z.of_nat j)
                 (calls + j) (sleeps + j)),
          pre ++ snd (wait_loop env attempts fuel (counter + Z.of_nat j)
                        (calls + j) (sleeps + j)))) /\
      count is_cli_attempt pre = j /\
      count is_cli_timed_out pre = 0%nat.
Proof.
  induction j as [|j IH]; intros counter calls sleeps Hc Hs Hle.
  - exists []. repeat split; try reflexivity.
    intros fuel. simpl.
    rewrite Z.add_0_r, !Nat.add_0_r.
    destruct (wait_loop env attempts fuel counter calls sleeps); reflexivity.
  - destruct (IH (counter + 1) (S calls) (S sleeps)) as (pre & Hrun & Hatt & Hto).
    + intros n Hn. replace (S calls + n)%nat with (calls + S n)%nat by lia.
      apply Hc. lia.
    + intros n Hn. replace (S sleeps + n)%nat with (sleeps + S n)%nat by lia.
      apply Hs. lia.
    + lia.
    + pose proof (Hc 0%nat ltac:(lia)) as Hc0.
      pose proof (Hs 0%nat ltac:(lia)) as Hs0.
      rewrite Nat.add_0_r in Hc0, Hs0.
      exists (CliAttempt NotReady
                :: (if counter =? 0 then [CliWaitingMsg] else [])
                ++ CliSleep Slept :: pre).
      split; [|split].
      * intros fuel. simpl.
        destruct (Z.ltb_spec counter attempts) as [_|Hge]; [|lia].
        rewrite Hc0, Hs0, Hrun.
        replace (counter + 1 + Z.of_nat j) with (counter + Z.of_nat (S j)) by lia.
        replace (S calls + j)%nat with (calls + S j)%nat by lia.
        replace (S sleeps + j)%nat with (sleeps + S j)%nat by lia.
        rewrite <- app_assoc. reflexivity.
      * simpl. rewrite count_app. simpl. rewrite Hatt.
        destruct (counter =? 0); simpl; lia.
      * simpl. rewrite count_app. simpl. rewrite Hto.
        destruct (counter =? 0); reflexivity.
Qed.

(** Never ready, never interrupted: as many attempts as [attempts] allows,
    then the time-out message and [False]. *)
Lemma wait_for_connection_never_ready :
  (forall n, connect env n = NotReady) ->
  (forall n, sleep env n = Slept) ->
  exists tr,
    Cli.wait_for_connection env attempts = (Some false, tr ++ [CliTimedOut]) /\
    count is_cli_attempt tr = Z.to_nat attempts /\
    count is_cli_timed_out tr = 0%nat.
Proof.
  intros Hc Hs.
  destruct (Z.lt_ge_cases attempts 0) as [Hneg|Hnn].
  { exists []. unfold Cli.wait_for_connection. simpl.
    destruct (Z.ltb_spec 0 attempts) as [Hlt|_]; [lia|].
    replace (Z.to_nat attempts) with 0%nat by lia. auto. }
  destruct (wait_loop_prefix (Z.to_nat attempts) 0 0%nat 0%nat)
    as (pre & Hrun & Hatt & Hto); [auto | auto | lia |].
  exists pre. split; [|split]; [|assumption..].
  unfold Cli.wait_for_connection.
  replace (S (Z.to_nat attempts)) with (Z.to_nat attempts + 1)%nat by lia.
  rewrite Hrun. simpl. rewrite !Z.add_0_l.
  destruct (Z.ltb_spec (Z.of_nat (Z.to_nat attempts)) attempts) as [Hlt|_];
    [lia|reflexivity].
Qed.

(** The first success ends the loop at once with [True]. *)
Lemma wait_for_connection_ready (k : nat) :
  (forall n, (n < k)%nat -> connect env n = NotReady) ->
  connect env k = Connected ->
  (forall n, (n < k)%nat -> sleep env n = Slept) ->
  Z.of_nat k < attempts ->
  exists tr,
    Cli.wait_for_connection env attempts = (Some true, tr ++ [CliAttempt Connected]) /\
    count is_cli_attempt tr = k /\
    count is_cli_timed_out tr = 0%nat.
Proof.
  intros Hc Hk Hs Hlt.
  destruct (wait_loop_prefix k 0 0%nat 0%nat)
    as (pre & Hrun & Hatt & Hto); [auto | auto | lia |].
  exists pre. split; [|split]; [|assumption..].
  unfold Cli.wait_for_connection.
  replace (S (Z.to_nat attempts)) with (k + S (Z.to_nat attempts - k))%nat by lia.
  rewrite Hrun. simpl. rewrite !Z.add_0_l.
  destruct (Z.ltb_spec (Z.of_nat k) attempts) as [_|Hge]; [|lia].
  rewrite Hk. reflexivity.
Qed.

(** An interrupted sleep ends the loop at once with [False], and without
    the time-out message. *)
Lemma wait_for_connection_interrupted (k : nat) :
  (forall n, (n <= k)%nat -> connect env n = NotReady) ->
  (forall n, (n < k)%nat -> sleep env n = Slept) ->
  sleep env k = Interrupted ->
  Z.of_nat k < attempts ->
  exists tr,
    Cli.wait_for_connection env attempts = (Some false, tr ++ [CliSleep Interrupted]) /\
    count is_cli_attempt tr = S k /\
    count is_cli_timed_out tr = 0%nat.
Proof.
  intros Hc Hs Hk Hlt.
  destruct (wait_loop_prefix k 0 0%nat 0%nat)
    as (pre & Hrun & Hatt & Hto); [auto with lia | auto | lia |].
  exists (pre ++ CliAttempt NotReady
              :: (if Z.of_nat k =? 0 then [CliWaitingMsg] else [])).
  split; [|split].
  - unfold Cli.wait_for_connection.
    replace (S (Z.to_nat attempts)) with (k + S (Z.to_nat attempts - k))%nat by lia.
    rewrite Hrun. simpl. rewrite !Z.add_0_l.
    destruct (Z.ltb_spec (Z.of_nat k) attempts) as [_|Hge]; [|lia].
    rewrite (Hc k), Hk by lia. simpl.
    rewrite <- !app_assoc. reflexivity.
  - rewrite count_app. simpl. rewrite Hatt.
    destruct (Z.of_nat k =? 0); simpl; lia.
  - rewrite count_app. simpl. rewrite Hto.
    destruct (Z.of_nat k =? 0); reflexivity.
Qed.

End CliLoop.

(** ** Bootstrap: the timer of the window *)

Section GuiLoop.
Import Bootstrap Bootstrap.Cli Bootstrap.Gui.
Variable conn_fn : nat -> conn_result.

(** A failed attempt that is not the last one allowed. *)
Lemma slot_not_ready (w : window) :
  conn_fn (conn_calls w) = NotReady ->
  conn_counter w + 1 < conn_attempts w ->
  Gui.wait_for_connection conn_fn w =
  ({| conn_counter := conn_counter w + 1; conn_attempts := conn_attempts w;
      conn_timer := conn_timer w; conn_calls := S (conn_calls w) |},
   (if conn_counter w =? 1 then [GuiShowWaiting] else [])
   ++ [GuiAttempt NotReady]).
Proof.
  intros Hr Hlt. unfold Gui.wait_for_connection. rewrite Hr.
  destruct (Z.geb_spec (conn_counter w + 1) (conn_attempts w)) as [Hge|_];
    [lia|].
  rewrite app_nil_r. reflexivity.
Qed.

(** A successful attempt that is not the last one allowed. *)
Lemma slot_connected (w : window) :
  conn_fn (conn_calls w) = Connected ->
  conn_counter w + 1 < conn_attempts w ->
  Gui.wait_for_connection conn_fn w =
  ({| conn_counter := conn_counter w + 1; conn_attempts := conn_attempts w;
      conn_timer := TimerDeleted; conn_calls := S (conn_calls w) |},
   (if conn_counter w =? 1 then [GuiShowWaiting] else [])
   ++ [GuiAttempt Connected; GuiHandoff]).
Proof.
  intros Hr Hlt. unfold Gui.wait_for_connection. rewrite Hr.
  destruct (Z.geb_spec (conn_counter w + 1) (conn_attempts w)) as [Hge|_];
    [lia|].
  rewrite app_nil_r. reflexivity.
Qed.

Lemma slot_counter (w : window) :
  conn_counter (fst (Gui.wait_for_connection conn_fn w)) = conn_counter w + 1.
Proof.
  unfold Gui.wait_for_connection.
  destruct (conn_fn (conn_calls w));
    destruct (conn_counter w + 1 >=? conn_attempts w);
    try destruct (timer_stop (conn_timer w)); reflexivity.
Qed.

(** The label is shown by the call that finds the counter at 1, and by no
    other. *)
Lemma slot_waiting (w : window) :
  count is_gui_waiting (snd (Gui.wait_for_connection conn_fn w)) =
  if conn_counter w =? 1 then 1%nat else 0%nat.
Proof.
  unfold Gui.wait_for_connection.
  destruct (conn_fn (conn_calls w));
    destruct (conn_counter w + 1 >=? conn_attempts w);
    try destruct (timer_stop (conn_timer w));
    destruct (conn_counter w =? 1); reflexivity.
Qed.

Lemma run_timer_no_waiting (fuel : nat) :
  forall w, 2 <= conn_counter w ->
    count is_gui_waiting (snd (run_timer conn_fn fuel w)) = 0%nat.
Proof.
  induction fuel as [|fuel IH]; intros w Hge; simpl; [reflexivity|].
  destruct (conn_timer w); try reflexivity.
  pose proof (slot_counter w) as Hcnt.
  pose proof (slot_waiting w) as Hw.
  destruct (Gui.wait_for_connection conn_fn w) as [w1 ev]. simpl in Hcnt, Hw.
  specialize (IH w1 ltac:(lia)).
  destruct (run_timer conn_fn fuel w1) as [w2 tr]. simpl in *.
  rewrite count_app, Hw, IH.
  destruct (Z.eqb_spec (conn_counter w) 1); [lia|reflexivity].
Qed.

(** Once the timer is not active no slot runs any more. *)
Lemma run_timer_inactive (fuel : nat) (w : window) :
  conn_timer w <> TimerActive -> run_timer conn_fn fuel w = (w, []).
Proof.
  intros Hna. destruct fuel; simpl; [reflexivity|].
  destruct (conn_timer w); congruence.
Qed.

(** [j] failed attempts in a row, none of them the last one allowed. *)
Lemma run_timer_prefix (j : nat) :
  forall w,
    conn_timer w = TimerActive ->
    (forall n, (n < j)%nat -> conn_fn (conn_calls w + n) = NotReady) ->
    conn_counter w + Z.of_nat j < conn_attempts w ->
    exists pre,
      (forall fuel,
         run_timer conn_fn (j + fuel) w =
         (fst (run_timer conn_fn fuel
                 {| conn_counter := conn_counter w + Z.of_nat j;
                    conn_attempts := conn_attempts w;
                    conn_timer := TimerActive;
                    conn_calls := conn_calls w + j |}),
          pre ++
          snd (run_timer conn_fn fuel
                 {| conn_counter := conn_counter w + Z.of_nat j;
                    conn_attempts := conn_attempts w;
                    conn_timer := TimerActive;
                    conn_calls := conn_calls w + j |}))) /\
      count is_gui_attempt pre = j /\
      count is_gui_timed_out pre = 0%nat /\
      count is_gui_handoff pre = 0%nat.
Proof.
  induction j as [|j IH]; intros w Hact Hc Hlt.
  - exists []. repeat split; try reflexivity.
    intros fuel. simpl. rewrite Z.add_0_r, Nat.add_0_r.
    destruct w as [c a t n]. simpl in *. subst t.
    destruct (run_timer conn_fn fuel _); reflexivity.
  - pose proof (Hc 0%nat ltac:(lia)) as Hc0. rewrite Nat.add_0_r in Hc0.
    pose proof (slot_not_ready w Hc0 ltac:(lia)) as Hslot.
    destruct (IH {| conn_counter := conn_counter w + 1;
                    conn_attempts := conn_attempts w;
                    conn_timer := conn_timer w;
                    conn_calls := S (conn_calls w) |})
      as (pre & Hrun & Hatt & Hto & Hho); simpl.
    + assumption.
    + intros n Hn. replace (S (conn_calls w + n))%nat
        with (conn_calls w + S n)%nat by lia. apply Hc. lia.
    + lia.
    + simpl in Hrun.
      exists (((if conn_counter w =? 1 then [GuiShowWaiting] else [])
               ++ [GuiAttempt NotReady]) ++ pre).
      split; [|split; [|split]].
      * intros fuel. simpl. rewrite Hact, Hslot, Hrun.
        replace (conn_counter w + 1 + Z.of_nat j)
          with (conn_counter w + Z.of_nat (S j)) by lia.
        replace (S (conn_calls w + j))%nat
          with (conn_calls w + S j)%nat by lia.
        rewrite <- !app_assoc. reflexivity.
      * rewrite !count_app, Hatt.
        destruct (conn_counter w =? 1); simpl; lia.
      * rewrite !count_app, Hto.
        destruct (conn_counter w =? 1); reflexivity.
      * rewrite !count_app, Hho.
        destruct (conn_counter w =? 1); reflexivity.
Qed.

(** Never ready: 120 attempts, then the time-out message and
    [QCoreApplication.exit(1)], with the timer stopped. *)
Lemma run_timer_never_ready :
  (forall n, conn_fn n = NotReady) ->
  forall extra, exists tr,
    run_timer conn_fn (120 + extra) start =
    ({| conn_counter := 120; conn_attempts := 120;
        conn_timer := TimerStopped; conn_calls := 120 |},
     tr ++ [GuiAttempt NotReady; GuiTimedOut; GuiExit 1]) /\
    count is_gui_attempt tr = 119%nat /\
    count is_gui_timed_out tr = 0%nat /\
    count is_gui_handoff tr = 0%nat.
Proof.
  intros Hc extra.
  destruct (run_timer_prefix 119 start)
    as (pre & Hrun & Hatt & Hto & Hho); [reflexivity | auto | simpl; lia |].
  exists pre. split; [|auto].
  replace (120 + extra)%nat with (119 + S extra)%nat by lia.
  rewrite Hrun. cbn [start conn_counter conn_attempts conn_calls].
  cbn [run_timer conn_timer]. unfold Gui.wait_for_connection.
  cbn [conn_counter conn_attempts conn_calls conn_timer].
  rewrite Hc.
  change (0 + Z.of_nat 119) with 119.
  change (119 + 1) with 120. change (120 >=? 120) with true.
  change (119 =? 1) with false. cbn [timer_stop].
  rewrite run_timer_inactive by (simpl; congruence). reflexivity.
Qed.

(** A success before the 120th attempt: the timer is stopped and deleted
    and nothing follows the hand-off. *)
Lemma run_timer_ready_before_last (k : nat) :
  (k < 119)%nat ->
  (forall n, (n < k)%nat -> conn_fn n = NotReady) ->
  conn_fn k = Connected ->
  forall extra, exists tr,
    run_timer conn_fn (S k + extra) start =
    ({| conn_counter := Z.of_nat k + 1; conn_attempts := 120;
        conn_timer := TimerDeleted; conn_calls := S k |},
     tr ++ [GuiAttempt Connected; GuiHandoff]) /\
    count is_gui_attempt tr = k /\
    count is_gui_timed_out tr = 0%nat /\
    count is_gui_handoff tr = 0%nat.
Proof.
  intros Hk Hc Hok extra.
  destruct (run_timer_prefix k start)
    as (pre & Hrun & Hatt & Hto & Hho); [reflexivity | auto | simpl; lia |].
  exists (pre ++ (if Z.of_nat k =? 1 then [GuiShowWaiting] else [])).
  split; [|split; [|split]].
  - replace (S k + extra)%nat with (k + S extra)%nat by lia.
    rewrite Hrun. cbn [start conn_counter conn_attempts conn_calls].
    cbn [run_timer conn_timer]. unfold Gui.wait_for_connection.
    cbn [conn_counter conn_attempts conn_calls conn_timer].
    rewrite Nat.add_0_l, Z.add_0_l, Hok.
    destruct (Z.geb_spec (Z.of_nat k + 1) 120) as [Hge|_]; [lia|].
    rewrite run_timer_inactive by (simpl; congruence).
    cbn [fst snd]. rewrite !app_nil_r, <- !app_assoc. reflexivity.
  - rewrite count_app, Hatt. destruct (Z.of_nat k =? 1); simpl; lia.
  - rewrite count_app, Hto. destruct (Z.of_nat k =? 1); simpl; lia.
  - rewrite count_app, Hho. destruct (Z.of_nat k =? 1); simpl; lia.
Qed.

End GuiLoop.

(** ** Bootstrap: the claims *)

Section BootstrapClaims.
Import Bootstrap Bootstrap.Cli Bootstrap.Gui.

(** C1, the window's loop at its boundary. When [conn_fn] raises
    [ConnectionNotReady] 119 times and returns at the 120th call, the slot
    runs the success branch (the timer is stopped and deleted, the player is
    handed over) and then falls through to the counter test: it prints
    "Timed out waiting for Spotify" and reads the deleted [conn_timer],
    which raises [AttributeError]. The run therefore does not end with the
    success outcome alone. No tick follows, whatever the fuel. *)
Theorem run_timer_ready_on_last_attempt :
  forall extra, exists tr,
    run_timer (ready_after 119) (120 + extra) start =
    ({| conn_counter := 120; conn_attempts := 120;
        conn_timer := TimerDeleted; conn_calls := 120 |},
     tr ++ [GuiAttempt Connected; GuiHandoff; GuiTimedOut; GuiAttributeError]) /\
    count is_gui_attempt tr = 119%nat /\
    count is_gui_timed_out tr = 0%nat /\
    count is_gui_handoff tr = 0%nat.
Proof.
  intros extra.
  destruct (run_timer_prefix (ready_after 119) 119 start)
    as (pre & Hrun & Hatt & Hto & Hho).
  - reflexivity.
  - intros n Hn. unfold ready_after. simpl.
    destruct (Nat.ltb_spec n 119); [reflexivity|lia].
  - simpl. lia.
  - exists pre. split; [|auto].
    replace (120 + extra)%nat with (119 + S extra)%nat by lia.
    rewrite Hrun. cbn [start conn_counter conn_attempts conn_calls].
    cbn [run_timer conn_timer]. unfold Gui.wait_for_connection.
    cbn [conn_counter conn_attempts conn_calls conn_timer].
    change (ready_after 119 (0 + 119)) with Connected.
    change (0 + Z.of_nat 119) with 119.
    change (119 + 1) with 120. change (120 >=? 120) with true.
    change (119 =? 1) with false. cbn [timer_stop].
    rewrite run_timer_inactive by (simpl; congruence). reflexivity.
Qed.

(** C4, as the code has it. When the user interrupts the sleep that
    follows the (k+1)-th failed attempt, the loop of the command-line
    program ends at once: no further attempt is made, the time-out message
    is not printed, and [False] is returned. [False] is also what a run
    that times out returns, so the value handed to the caller is the same in
    both cases. *)
Theorem cancel_stops_loop (env : conn_env) (attempts : Z) (k : nat) :
  (forall n, (n <= k)%nat -> connect env n = NotReady) ->
  (forall n, (n < k)%nat -> sleep env n = Slept) ->
  sleep env k = Interrupted ->
  Z.of_nat k < attempts ->
  (exists tr,
     Cli.wait_for_connection env attempts =
     (Some false, tr ++ [CliSleep Interrupted]) /\
     count is_cli_attempt tr = S k /\
     count is_cli_timed_out tr = 0%nat) /\
  fst (Cli.wait_for_connection env attempts) =
  fst (Cli.wait_for_connection
         {| connect := never_ready; sleep := never_interrupted |} attempts).
Proof.
  intros Hc Hs Hk Hlt.
  destruct (wait_for_connection_interrupted env attempts k Hc Hs Hk Hlt)
    as (tr & Hrun & Hatt & Hto).
  split.
  - exists tr. auto.
  - destruct (wait_for_connection_never_ready
                {| connect := never_ready; sleep := never_interrupted |}
                attempts) as (tr' & Hrun' & _); [reflexivity..|].
    rewrite Hrun, Hrun'. reflexivity.
Qed.

Lemma cancel_stops_loop_witness :
  (exists tr,
     Cli.wait_for_connection
       {| connect := never_ready; sleep := interrupted_at 1 |} 30 =
     (Some false, tr ++ [CliSleep Interrupted]) /\
     count is_cli_attempt tr = 2%nat /\
     count is_cli_timed_out tr = 0%nat) /\
  fst (Cli.wait_for_connection
         {| connect := never_ready; sleep := interrupted_at 1 |} 30) =
  fst (Cli.wait_for_connection
         {| connect := never_ready; sleep := never_interrupted |} 30).
Proof.
  apply (cancel_stops_loop
           {| connect := never_ready; sleep := interrupted_at 1 |} 30 1).
  - intros n _. reflexivity.
  - intros n Hn. assert (n = 0%nat) as -> by lia. reflexivity.
  - reflexivity.
  - lia.
Defined.

(** C4 as stated fails: a run cancelled during its first sleep and a run
    that times out hand the same value, [False], to the caller. *)
Lemma cancel_returns_like_timeout :
  fst (Cli.wait_for_connection
         {| connect := never_ready; sleep := interrupted_at 0 |}
         default_attempts) = Some false /\
  fst (Cli.wait_for_connection
         {| connect := never_ready; sleep := never_interrupted |}
         default_attempts) = Some false.
Proof. split; vm_compute; reflexivity. Qed.

(** C9. In both loops the waiting message is surfaced exactly once when the
    first attempt fails, right after that attempt and before any other,
    and never again; it is not surfaced when the first attempt succeeds.
    (For the window two ticks must have been observed for the message to
    be in the trace; in no observation is it there twice.) *)
Theorem waiting_message_once :
  (forall (env : conn_env) (attempts : Z),
     let tr := snd (Cli.wait_for_connection env attempts) in
     match connect env 0 with
     | NotReady =>
         if 0 <? attempts
         then exists rest,
                tr = CliAttempt NotReady :: CliWaitingMsg :: rest /\
                count is_cli_waiting rest = 0%nat
         else tr = [CliTimedOut]
     | Connected => count is_cli_waiting tr = 0%nat
     end) /\
  (forall (conn_fn : nat -> conn_result) (ticks : nat),
     let tr := snd (run_timer conn_fn (S (S ticks)) start) in
     match conn_fn 0%nat with
     | NotReady =>
         exists rest,
           tr = GuiAttempt NotReady :: GuiShowWaiting :: rest /\
           count is_gui_waiting rest = 0%nat
     | Connected => count is_gui_waiting tr = 0%nat
     end) /\
  (forall (conn_fn : nat -> conn_result) (ticks : nat),
     (count is_gui_waiting (snd (run_timer conn_fn ticks start)) <= 1)%nat).
Proof.
  split; [|split].
  - intros env attempts tr. subst tr. unfold Cli.wait_for_connection. simpl.
    destruct (connect env 0) eqn:Hc0.
    + destruct (0 <? attempts); reflexivity.
    + destruct (0 <? attempts); [|reflexivity].
      change (0 =? 0) with true. simpl.
      destruct (sleep env 0).
      * pose proof (wait_loop_no_waiting env attempts (Z.to_nat attempts)
                      (0 + 1) 1 1 ltac:(lia)) as Hno.
        destruct (wait_loop env attempts (Z.to_nat attempts) (0 + 1) 1 1)
          as [r tr]. simpl in *.
        exists (CliSleep Slept :: tr). split; [reflexivity|]. simpl. exact Hno.
      * exists [CliSleep Interrupted]. split; reflexivity.
  - intros conn_fn ticks tr. subst tr.
    cbn [run_timer]. change (conn_timer start) with TimerActive. cbv iota.
    destruct (conn_fn 0%nat) eqn:Hc0.
    + rewrite (slot_connected conn_fn start Hc0 ltac:(simpl; lia)).
      reflexivity.
    + rewrite (slot_not_ready conn_fn start Hc0 ltac:(simpl; lia)).
      cbn [conn_timer conn_counter conn_attempts conn_calls start].
      set (w1 := {| conn_counter := 0 + 1; conn_attempts := 120;
                    conn_timer := TimerActive; conn_calls := 1 |}).
      change (0 =? 1) with false. cbn [app].
      destruct (conn_fn 1%nat) eqn:Hc1.
      * rewrite (slot_connected conn_fn w1 Hc1 ltac:(simpl; lia)).
        rewrite run_timer_inactive by (simpl; congruence).
        eexists. split; reflexivity.
      * rewrite (slot_not_ready conn_fn w1 Hc1 ltac:(simpl; lia)).
        cbn [conn_timer conn_counter conn_attempts conn_calls w1].
        change (0 + 1 =? 1) with true.
        match goal with
        | |- context [run_timer conn_fn ticks ?w] =>
            pose proof (run_timer_no_waiting conn_fn ticks w
                          ltac:(simpl; lia)) as Hno;
            destruct (run_timer conn_fn ticks w) as [w2 tr]
        end.
        simpl in Hno. eexists. split; [reflexivity|]. simpl. exact Hno.
  - intros conn_fn ticks.
    destruct ticks as [|ticks]; [simpl; lia|].
    cbn [run_timer start conn_timer].
    pose proof (slot_waiting conn_fn start) as Hw.
    pose proof (slot_counter conn_fn start) as Hcnt.
    destruct (Gui.wait_for_connection conn_fn start) as [w1 ev].
    simpl in Hw, Hcnt.
    destruct ticks as [|ticks].
    + simpl. rewrite app_nil_r, Hw. lia.
    + cbn [run_timer]. destruct (conn_timer w1);
        try (simpl; rewrite app_nil_r, Hw; lia).
      pose proof (slot_waiting conn_fn w1) as Hw1.
      pose proof (slot_counter conn_fn w1) as Hcnt1.
      destruct (Gui.wait_for_connection conn_fn w1) as [w2 ev1].
      simpl in Hw1, Hcnt1.
      pose proof (run_timer_no_waiting conn_fn ticks w2 ltac:(lia)) as Hno.
      destruct (run_timer conn_fn ticks w2) as [w3 tr]. simpl in *.
      rewrite !count_app, Hw, Hw1, Hno.
      destruct (conn_counter w1 =? 1); lia.
Qed.

End BootstrapClaims.

(** ** The first entry point: detection of a new song *)

Section LegacyClaims.
Import Track Legacy.
Variable e : env.




End LegacyClaims.


(** ** The players: pause flag and position *)

Section PlayerClaims.
Import Player Mirror.
Context {V : Type} {HV : LibVLC V} {M : Type} {HM : LibMPV M}.

Lemma vlc_set_pause_log (do_pause : bool) (p : VLCPlayer V) :
  vlc_log (vlc_set_pause do_pause p) =
  vlc_log p ++ VlcIsPlaying ::
    (if Bool.eqb (negb (vlc_is_playing (vlc_native p))) do_pause then []
     else [if do_pause then VlcPause else VlcPlay]).
Proof.
  unfold vlc_set_pause, vlc_get_pause.
  destruct do_pause, (vlc_is_playing (vlc_native p)); simpl;
    rewrite <- ?app_assoc; reflexivity.
Qed.

Lemma vlc_set_pause_native (do_pause : bool) (p : VLCPlayer V) :
  vlc_native (vlc_set_pause do_pause p) =
  if Bool.eqb (negb (vlc_is_playing (vlc_native p))) do_pause
  then vlc_native p
  else if do_pause then vlc_pause (vlc_native p) else vlc_play (vlc_native p).
Proof.
  unfold vlc_set_pause, vlc_get_pause.
  destruct do_pause, (vlc_is_playing (vlc_native p)); reflexivity.
Qed.


Lemma elapsed_ms_nonneg (t0 t1 : Q) : (t0 <= t1)%Q -> 0 <= elapsed_ms t0 t1.
Proof.
  intros Hle. unfold elapsed_ms, py_int.
  apply Z.quot_pos; [|lia].
  assert (0 <= (t1 - t0) * inject_Z 1000)%Q as Hq.
  { apply Qmult_le_0_compat; [|discriminate].
    unfold Qminus. rewrite <- (Qplus_opp_r t0).
    apply Qplus_le_l. exact Hle. }
  unfold Qle in Hq. cbn [Qnum Qden] in Hq.
  rewrite Z.mul_0_l, Z.mul_1_r in Hq. exact Hq.
Qed.

(** C7, as the code has it. No position is clamped: the slot hands [ms]
    to the player as it is, VLC passes it to [set_time] and mpv seeks to
    [ms / 1000] seconds. A position is therefore non-negative when the one
    reported is; the one the command-line program estimates is
    non-negative when the clock did not go back. *)
Theorem position_passed_unchanged :
  (forall (ms : Z) (w : window (VLCPlayer V)),
     trace (change_video_position ms w) = trace w ++ [SetPosition ms] /\
     vlc_log (player (change_video_position ms w)) =
     vlc_log (player w) ++ [VlcSetTime ms]) /\
  (forall (ms : Z) (w : window (MpvPlayer M)),
     trace (change_video_position ms w) = trace w ++ [SetPosition ms] /\
     mpv_log (player (change_video_position ms w)) =
     mpv_log (player w)
       ++ [MpvWaitForProperty "seekable"; MpvSeekAbsolute (ms # 1000)]) /\
  (forall t0 t1 : Q, (t0 <= t1)%Q -> 0 <= elapsed_ms t0 t1).
Proof.
  split; [|split].
  - intros ms w. split; reflexivity.
  - intros ms w. split; [reflexivity|]. simpl.
    rewrite <- app_assoc. reflexivity.
  - exact elapsed_ms_nonneg.
Qed.

End PlayerClaims.

Section PlayerWitnesses.
Import Player Mirror.



(** C10, the mpv player started on a paused player. [start_video] of the
    mpv player calls [play(url)] and writes [pause = True] when
    [is_playing] is false; it never writes [pause = False], whatever the
    library. The flag read afterwards with [is_playing] true is therefore
    the one [play(url)] leaves, and mpv keeps its [pause] property across
    a new file: a player that was paused stays paused although the song
    plays. The VLC player started in the same situation calls [play()]
    and ends up not paused. *)
Theorem mpv_start_video_keeps_pause :
  (forall (M : Type) (HM : LibMPV M) (url : string) (is_playing : bool)
          (q : MpvPlayer M),
     mpv_log (start_video url is_playing q) =
       mpv_log q ++ MpvPlay url ::
         (if is_playing then [] else [MpvSetPause true]) /\
     fst (get_pause (start_video url true q)) =
       mpv_get_pause (mpv_play url (mpv_native q))) /\
  (let paused := set_pause true new_mpv in
   fst (get_pause paused) = true /\
   fst (get_pause (start_video "https://video/ab" true paused)) = true /\
   mpv_log (start_video "https://video/ab" true paused) =
     [MpvSetPause true; MpvPlay "https://video/ab"]) /\
  (let paused :=
     set_pause true (start_video "https://video/aa" true (new_vlc LINUX)) in
   fst (get_pause paused) = true /\
   fst (get_pause (start_video "https://video/ab" true paused)) = false).
Proof.
  split; [|split].
  - intros M HM url is_playing q. split.
    + simpl. unfold mpv_player_start_video.
      destruct is_playing; simpl; rewrite <- ?app_assoc; reflexivity.
    + reflexivity.
  - repeat split.
  - split; reflexivity.
Qed.

Lemma position_passed_unchanged_witness :
  (0 <= 1)%Q /\ 0 <= elapsed_ms 0 1.
Proof.
  split.
  - unfold Qle. simpl. lia.
  - apply (proj2 (proj2 (@position_passed_unchanged vlc_double _ mpv_double _))).
    unfold Qle. simpl. lia.
Defined.

(** C7 as stated fails: a negative position reaches both native players as
    it is. *)
Lemma negative_position_reaches_player :
  vlc_log (player (change_video_position (-5) (new_window (new_vlc LINUX)))) =
    [VlcSetTime (-5)] /\
  mpv_log (player (change_video_position (-5) (new_window new_mpv))) =
    [MpvWaitForProperty "seekable"; MpvSeekAbsolute (-5 # 1000)].
Proof. split; reflexivity. Qed.

End PlayerWitnesses.

(** ** The slots and the loop body: resolver failure, missing position,
       waiting for the player *)

Section MirrorClaims.
Import Track Player Mirror.
Context {P : Type} {HP : PlayerBase P}.

Lemma repeat_snoc {A : Type} (x : A) (n : nat) (l : list A) :
  (l ++ [x]) ++ repeat x n = l ++ repeat x (S n).
Proof. rewrite <- app_assoc. reflexivity. Qed.

(** The polling loop reads the position until a reading is not zero: [k]
    zero readings followed by another one make [k + 1] readings. *)
Lemma wait_for_video_polls (k : nat) :
  forall (fuel : nat) (s : cli P),
    (forall i, (i < k)%nat ->
       Qeq_bool (fst (get_position (after_reads i (cli_player s))))
                (inject_Z 0) = true) ->
    Qeq_bool (fst (get_position (after_reads k (cli_player s))))
             (inject_Z 0) = false ->
    (k < fuel)%nat ->
    wait_for_video fuel s =
    Some {| cli_player := after_reads (S k) (cli_player s);
            cli_trace := cli_trace s ++ repeat GetPosition (S k);
            cli_time_reads := cli_time_reads s |}.
Proof.
  induction k as [|k IH]; intros fuel s Hzero Hk Hfuel;
    (destruct fuel as [|fuel]; [lia|]); simpl in *.
  - destruct (get_position (cli_player s)) as [pos p'].
    simpl in *. rewrite Hk. reflexivity.
  - pose proof (Hzero 0%nat ltac:(lia)) as H0. simpl in H0.
    destruct (get_position (cli_player s)) as [pos p'] eqn:Hpos.
    simpl in *. rewrite H0.
    rewrite (IH fuel (cli_on_player GetPosition (fun _ => p') s)).
    + simpl. rewrite <- app_assoc. reflexivity.
    + intros i Hi. simpl. specialize (Hzero (S i) ltac:(lia)).
      simpl in Hzero. rewrite Hpos in Hzero. exact Hzero.
    + simpl. exact Hk.
    + lia.
Qed.

(** C5, as the code has it. When the resolver raises, neither the slot
    [play_video] nor the loop of the command-line program catches the
    exception: it leaves the function. Before that the resolver was asked
    once and the player was not touched. *)
Theorem resolver_failure_skips_player
    (youtube_get_url : option string -> string -> exn + string)
    (env : cli_env) (lyrics : bool) (fuel : nat) (a : api)
    (w : window P) (s : cli P) (ex ex' : exn) :
  youtube_get_url (artist (api_track a)) (title (api_track a)) = inl ex ->
  get_url env (artist (api_track a)) (title (api_track a)) = inl ex' ->
  play_video youtube_get_url lyrics a w =
    Raised ex
      {| player := player w;
         trace := trace w
                  ++ [GetUrl (artist (api_track a)) (title (api_track a))] |} /\
  play_videos_linux_round env lyrics fuel a s =
    Some (Raised ex'
      {| cli_player := cli_player s;
         cli_trace := cli_trace s
                  ++ [GetUrl (artist (api_track a)) (title (api_track a))];
         cli_time_reads := S (cli_time_reads s) |}).
Proof.
  intros Hgui Hcli. split.
  - unfold play_video. rewrite Hgui. reflexivity.
  - unfold play_videos_linux_round. simpl. rewrite Hcli. reflexivity.
Qed.

(** C6, as the code has it. In the window a position that the API cannot
    give ([NotImplementedError]) is caught and the player is sent to
    position 0, once. In the Linux loop of the command-line program the
    position is never asked of the API: when the song is playing the
    player is polled until it reports a position, and is then sent once to
    the time elapsed since the round began; when the song is paused no
    position is set. Nothing is corrected afterwards. *)
Theorem unsupported_position_fallback
    (youtube_get_url : option string -> string -> exn + string)
    (env : cli_env) (lyrics : bool) (a : api) (url : string) :
  let t := api_track a in
  let tail := if lyrics then [Lyrics] else [] in
  (forall w : window P,
     api_position a = None ->
     youtube_get_url (artist t) (title t) = inr url ->
     exists w',
       play_video youtube_get_url lyrics a w = Returned w' /\
       trace w' = trace w ++ [GetUrl (artist t) (title t);
                              StartVideo url (api_is_playing a);
                              SetPosition 0] ++ tail) /\
  (forall (fuel : nat) (s : cli P),
     get_url env (artist t) (title t) = inr url ->
     api_is_playing a = false ->
     exists s',
       play_videos_linux_round env lyrics fuel a s = Some (Returned s') /\
       cli_trace s' = cli_trace s ++ [GetUrl (artist t) (title t);
                                      StartVideo url false] ++ tail) /\
  (forall (fuel k : nat) (s : cli P),
     get_url env (artist t) (title t) = inr url ->
     api_is_playing a = true ->
     (forall i, (i < k)%nat ->
        Qeq_bool (fst (get_position
                         (after_reads i (start_video url true (cli_player s)))))
                 (inject_Z 0) = true) ->
     Qeq_bool (fst (get_position
                      (after_reads k (start_video url true (cli_player s)))))
              (inject_Z 0) = false ->
     (k < fuel)%nat ->
     exists s',
       play_videos_linux_round env lyrics fuel a s = Some (Returned s') /\
       cli_trace s' =
         cli_trace s ++ [GetUrl (artist t) (title t); StartVideo url true]
           ++ repeat GetPosition (S k)
           ++ [SetPosition (elapsed_ms (time env (cli_time_reads s))
                                       (time env (S (cli_time_reads s))))]
           ++ tail).
Proof.
  intros t tail. subst t tail. split; [|split].
  - intros w Hpos Hurl. unfold play_video. rewrite Hurl, Hpos.
    eexists. split; [reflexivity|].
    destruct lyrics; simpl; rewrite <- !app_assoc; reflexivity.
  - intros fuel s Hurl Hplaying. unfold play_videos_linux_round. simpl.
    rewrite Hurl, Hplaying.
    eexists. split; [reflexivity|].
    destruct lyrics; simpl; rewrite <- !app_assoc; reflexivity.
  - intros fuel k s Hurl Hplaying Hzero Hk Hfuel.
    unfold play_videos_linux_round. simpl.
    rewrite Hurl, Hplaying.
    rewrite (wait_for_video_polls k); [|exact Hzero|exact Hk|exact Hfuel].
    eexists. split; [reflexivity|].
    destruct lyrics; simpl; rewrite <- !app_assoc; reflexivity.
Qed.

(** C8, as the code has it. Only the mpv setter waits: it blocks in
    [wait_for_property('seekable')] and seeks in the state in which that
    call returned. The VLC setter calls [set_time] at once. The Linux loop
    of the command-line program waits for the video by reading
    [player.position] over and over until it is not zero. *)
Theorem position_write_waiting :
  (forall (M : Type) (HM : LibMPV M) (ms : Z) (p : MpvPlayer M),
     mpv_log (set_position ms p) =
       mpv_log p ++ [MpvWaitForProperty "seekable";
                     MpvSeekAbsolute (ms # 1000)] /\
     mpv_native (set_position ms p) =
       mpv_seek (ms # 1000) (mpv_wait_for_property "seekable" (mpv_native p))) /\
  (forall (V : Type) (HV : LibVLC V) (ms : Z) (p : VLCPlayer V),
     vlc_log (set_position ms p) = vlc_log p ++ [VlcSetTime ms]) /\
  (forall (fuel k : nat) (s : cli P),
     (forall i, (i < k)%nat ->
        Qeq_bool (fst (get_position (after_reads i (cli_player s))))
                 (inject_Z 0) = true) ->
     Qeq_bool (fst (get_position (after_reads k (cli_player s))))
              (inject_Z 0) = false ->
     (k < fuel)%nat ->
     exists s',
       wait_for_video fuel s = Some s' /\
       cli_trace s' = cli_trace s ++ repeat GetPosition (S k)).
Proof.
  split; [|split].
  - intros M HM ms p. split; [|reflexivity]. simpl.
    rewrite <- app_assoc. reflexivity.
  - intros V HV ms p. reflexivity.
  - intros fuel k s Hzero Hk Hfuel.
    rewrite (wait_for_video_polls k fuel s Hzero Hk Hfuel).
    eexists. split; reflexivity.
Qed.

End MirrorClaims.

Section MirrorWitnesses.
Import Track Player Mirror.

Lemma resolver_failure_skips_player_witness :
  play_video youtube_fails false song (new_window new_mpv) =
    Raised DownloadError
      {| player := new_mpv; trace := [GetUrl (Some "A") "B"] |} /\
  play_videos_linux_round cli_no_entries false 10 song (new_cli new_mpv) =
    Some (Raised IndexError
      {| cli_player := new_mpv; cli_trace := [GetUrl (Some "A") "B"];
         cli_time_reads := 1 |}).
Proof.
  apply (@resolver_failure_skips_player (MpvPlayer mpv_double) _
           youtube_fails cli_no_entries false 10 song
           (new_window new_mpv) (new_cli new_mpv) DownloadError IndexError);
    reflexivity.
Defined.

(** C5 as stated fails: with a resolver that raises, [play_video] and the
    round of the command-line loop end with the exception, they do not
    return. *)
Lemma resolver_failure_propagates :
  has_raised (play_video youtube_fails false song
                (new_window (new_vlc LINUX))) = true /\
  option_map has_raised
    (play_videos_linux_round cli_no_entries false 10 song
       (new_cli (new_vlc LINUX))) = Some true.
Proof. split; reflexivity. Qed.

Lemma slow_player_zero_reads (i : nat) :
  (i < 3)%nat ->
  Qeq_bool (fst (get_position
                   (after_reads i (start_video "https://video/ab" true
                                     slow_player))))
           (inject_Z 0) = true.
Proof.
  intros Hi. destruct i as [|[|[|i]]]; try reflexivity. lia.
Qed.

Lemma unsupported_position_fallback_witness :
  (exists w',
     play_video youtube_found false song (new_window slow_player) = Returned w' /\
     trace w' = [GetUrl (Some "A") "B"; StartVideo "https://video/ab" true;
                 SetPosition 0]) /\
  (exists s',
     play_videos_linux_round cli_found false 10 paused_song
       (new_cli slow_player) = Some (Returned s') /\
     cli_trace s' = [GetUrl (Some "A") "B";
                     StartVideo "https://video/ab" false]) /\
  (exists s',
     play_videos_linux_round cli_found false 10 song
       (new_cli slow_player) = Some (Returned s') /\
     cli_trace s' = [GetUrl (Some "A") "B"; StartVideo "https://video/ab" true;
                     GetPosition; GetPosition; GetPosition; GetPosition;
                     SetPosition 250]).
Proof.
  split; [|split].
  - apply (proj1 (@unsupported_position_fallback scripted _
                    youtube_found cli_found false song "https://video/ab")
             (new_window slow_player)); reflexivity.
  - apply (proj1 (proj2 (@unsupported_position_fallback scripted _
                    youtube_found cli_found false paused_song
                    "https://video/ab"))
             10%nat (new_cli slow_player)); reflexivity.
  - apply (proj2 (proj2 (@unsupported_position_fallback scripted _
                    youtube_found cli_found false song "https://video/ab"))
             10%nat 3%nat (new_cli slow_player)).
    + reflexivity.
    + reflexivity.
    + exact slow_player_zero_reads.
    + reflexivity.
    + lia.
Defined.

(** C6 as stated fails: in the window the fallback is a seek to 0, not to
    an elapsed time, and in the command-line loop a paused song gets no
    seek at all. *)
Lemma unsupported_position_seeks_to_zero :
  trace (final_state (play_video youtube_found false song
                        (new_window (new_vlc LINUX)))) =
    [GetUrl (Some "A") "B"; StartVideo "https://video/ab" true;
     SetPosition 0] /\
  play_videos_linux_round cli_found false 10 paused_song
    (new_cli slow_player) =
    Some (Returned
      {| cli_player := {| script := script slow_player; seeks := [];
                          paused := true |};
         cli_trace := [GetUrl (Some "A") "B";
                       StartVideo "https://video/ab" false];
         cli_time_reads := 1 |}).
Proof. split; reflexivity. Qed.

Lemma position_write_waiting_witness :
  exists s',
    wait_for_video 10 (new_cli slow_player) = Some s' /\
    cli_trace s' = [GetPosition; GetPosition; GetPosition; GetPosition].
Proof.
  apply (proj2 (proj2 (@position_write_waiting scripted _))
           10%nat 3%nat (new_cli slow_player)).
  - intros i Hi. destruct i as [|[|[|i]]]; try reflexivity. lia.
  - reflexivity.
  - lia.
Defined.

(** C8 as stated fails: the VLC setter issues [set_time] without waiting
    for anything, and the round of the command-line loop waits for the
    player by polling its position, four readings here, with no blocking
    call. *)
Lemma linux_round_polls_position :
  vlc_log (set_position 250 (new_vlc LINUX)) = [VlcSetTime 250] /\
  play_videos_linux_round cli_found false 10 song (new_cli slow_player) =
    Some (Returned
      {| cli_player := {| script := []; seeks := [250]; paused := false |};
         cli_trace := [GetUrl (Some "A") "B";
                       StartVideo "https://video/ab" true;
                       GetPosition; GetPosition; GetPosition; GetPosition;
                       SetPosition 250];
         cli_time_reads := 2 |}).
Proof. split; reflexivity. Qed.

End MirrorWitnesses.

(** * Further properties *)

(** ** The command-line connection loop, for any behaviour of [connect]
       and [sleep] *)

Section CliLoopBounds.
Import Bootstrap Bootstrap.Cli Readings.
Variable env : conn_env.
Variable attempts : Z.

Lemma ends_connected_cons (e : cli_event) (tr : list cli_event) :
  tr <> [] -> ends_connected (e :: tr) = ends_connected tr.
Proof.
  intros Hne. unfold ends_connected.
  destruct tr as [|e' tr]; [congruence|]. reflexivity.
Qed.

Lemma ends_connected_skip (pre tr : list cli_event) :
  tr <> [] -> ends_connected (pre ++ tr) = ends_connected tr.
Proof.
  intros Hne. induction pre as [|e pre IH]; [reflexivity|].
  simpl. rewrite ends_connected_cons; [exact IH|].
  destruct pre; simpl; [assumption|discriminate].
Qed.

(** With one unit of fuel more than the iterations still allowed the loop
    returns; it attempts no more often than allowed, sleeps only after a
    failed attempt, and says [True] exactly when its last step is a
    successful attempt. *)
Lemma wait_loop_bounds (fuel : nat) :
  forall counter calls sleeps,
    (Z.to_nat (attempts - counter) < fuel)%nat ->
    exists b tr,
      wait_loop env attempts fuel counter calls sleeps = (Some b, tr) /\
      tr <> [] /\
      (count is_cli_attempt tr <= Z.to_nat (attempts - counter))%nat /\
      (count is_cli_sleep tr <= count is_cli_attempt tr)%nat /\
      (count is_cli_timed_out tr <= 1)%nat /\
      b = ends_connected tr.
Proof.
  induction fuel as [|fuel IH]; intros counter calls sleeps Hfuel; [lia|].
  simpl.
  destruct (Z.ltb_spec counter attempts) as [Hlt|Hge].
  - destruct (connect env calls).
    + exists true, [CliAttempt Connected]. simpl.
      repeat split; try lia. discriminate.
    + destruct (sleep env sleeps).
      * destruct (IH (counter + 1) (S calls) (S sleeps))
          as (b & tr & Hrun & Hne & Hatt & Hsl & Hto & Hb); [lia|].
        rewrite Hrun.
        exists b, (CliAttempt NotReady
                     :: (if counter =? 0 then [CliWaitingMsg] else [])
                     ++ CliSleep Slept :: tr).
        split; [reflexivity|]. split; [discriminate|].
        simpl. rewrite !count_app. simpl.
        repeat split.
        -- destruct (counter =? 0); simpl; lia.
        -- destruct (counter =? 0); simpl; lia.
        -- destruct (counter =? 0); simpl; lia.
        -- rewrite Hb. symmetry.
           rewrite ends_connected_cons
             by (destruct (counter =? 0); discriminate).
           rewrite (ends_connected_skip _ (CliSleep Slept :: tr))
             by discriminate.
           apply ends_connected_cons. exact Hne.
      * exists false, (CliAttempt NotReady
                         :: (if counter =? 0 then [CliWaitingMsg] else [])
                         ++ [CliSleep Interrupted]).
        split; [reflexivity|]. split; [discriminate|].
        simpl. rewrite !count_app. simpl.
        repeat split; try (destruct (counter =? 0); simpl; lia).
        destruct (counter =? 0); reflexivity.
  - exists false, [CliTimedOut]. simpl.
    repeat split; try lia. discriminate.
Qed.


End CliLoopBounds.

(** ** The timer of the window, for any behaviour of [conn_fn] *)

Section GuiLoopBounds.
Import Bootstrap Bootstrap.Gui.
Variable conn_fn : nat -> conn_result.




End GuiLoopBounds.

(** ** The first entry point: offsets and the download cache *)

Section LegacyCache.
Import Track Legacy Readings.
Variable e : env.

Lemma offset_ms_range (t0 t1 : Z) : 0 <= offset_ms t0 t1 <= 999.
Proof.
  unfold offset_ms.
  pose proof (Z.mod_pos_bound (t1 - t0) 1000000 ltac:(lia)) as Hm.
  split.
  - apply Z.div_pos; lia.
  - assert ((t1 - t0) mod 1000000 / 1000 < 1000); [|lia].
    apply Z.div_lt_upper_bound; lia.
Qed.

Lemma played_offsets_app (tr1 tr2 : list event) :
  played_offsets (tr1 ++ tr2) = played_offsets tr1 ++ played_offsets tr2.
Proof.
  induction tr1 as [|ev tr1 IH]; [reflexivity|].
  destruct ev; simpl; rewrite IH; reflexivity.
Qed.


Lemma main_prologue_offsets (t : track) (st : state) :
  Forall (fun o => 0 <= o <= 999)
    (played_offsets (snd (main_prologue e t st))).
Proof.
  unfold main_prologue.
  destruct (videos st !! name_of e t); simpl;
    repeat constructor; apply offset_ms_range.
Qed.

Lemma main_loop_offsets (obs : list track) :
  forall name st,
    Forall (fun o => 0 <= o <= 999)
      (played_offsets (snd (main_loop e name st obs))).
Proof.
  induction obs as [|t obs IH]; intros name st; simpl; [constructor|].
  destruct (negb (String.eqb (name_of e t) name)).
  - pose proof (main_prologue_offsets t st) as H0.
    destruct (main_prologue e t st) as [st1 ev]. simpl in H0.
    specialize (IH (name_of e t) st1).
    destruct (main_loop e (name_of e t) st1 obs) as [st2 tr]. simpl in *.
    rewrite played_offsets_app. apply Forall_app. auto.
  - specialize (IH name st).
    destruct (main_loop e name st obs) as [st2 tr]. simpl in *. exact IH.
Qed.

(** X3. Every offset handed to [vlc.play_video] lies between 0 and 999
    milliseconds, whatever the clock says: the code reads the microsecond
    field of the elapsed time, so whole seconds spent downloading are
    dropped. *)
Theorem main_offsets_below_one_second
    (t : track) (st : state) (obs : list track) :
  Forall (fun o => 0 <= o <= 999) (played_offsets (snd (main e t st obs))).
Proof.
  unfold main.
  pose proof (main_prologue_offsets t st) as H0.
  destruct (main_prologue e t st) as [st1 ev]. simpl in H0.
  pose proof (main_loop_offsets obs (name_of e t) st1) as H1.
  destruct (main_loop e (name_of e t) st1 obs) as [st2 tr]. simpl in *.
  rewrite played_offsets_app. apply Forall_app. auto.
Qed.

(** Downloads of [n] still possible: none once [n] is in [videos]. *)
Lemma main_prologue_downloads (n : string) (t : track) (st : state) :
  (count (is_download_of n) (snd (main_prologue e t st))
   + match videos (fst (main_prologue e t st)) !! n with
     | Some _ => 0
     | None => 1
     end
   <= match videos st !! n with Some _ => 0 | None => 1 end)%nat.
Proof.
  unfold main_prologue.
  destruct (videos st !! name_of e t) as [f|] eqn:Hname; simpl.
  - destruct (videos st !! n); lia.
  - destruct (String.eqb_spec (name_of e t) n) as [Heq|Hne].
    + subst n. rewrite lookup_insert_eq, Hname. lia.
    + rewrite lookup_insert_ne by exact Hne.
      destruct (videos st !! n); lia.
Qed.

Lemma main_loop_downloads (n : string) (obs : list track) :
  forall name st,
    (count (is_download_of n) (snd (main_loop e name st obs))
     <= match videos st !! n with Some _ => 0 | None => 1 end)%nat.
Proof.
  induction obs as [|t obs IH]; intros name st; simpl.
  - destruct (videos st !! n); lia.
  - destruct (negb (String.eqb (name_of e t) name)).
    + pose proof (main_prologue_downloads n t st) as H0.
      destruct (main_prologue e t st) as [st1 ev]. simpl in H0.
      specialize (IH (name_of e t) st1).
      destruct (main_loop e (name_of e t) st1 obs) as [st2 tr]. simpl in *.
      rewrite count_app. lia.
    + specialize (IH name st).
      destruct (main_loop e name st obs) as [st2 tr]. simpl in *. exact IH.
Qed.

(** X4. Over any sequence of observations a name is downloaded at most
    once, and never when it is in [videos] already. *)
Theorem main_downloads_once
    (n : string) (t : track) (st : state) (obs : list track) :
  (count (is_download_of n) (snd (main e t st obs))
   <= match videos st !! n with Some _ => 0 | None => 1 end)%nat.
Proof.
  unfold main.
  pose proof (main_prologue_downloads n t st) as H0.
  destruct (main_prologue e t st) as [st1 ev]. simpl in H0.
  pose proof (main_loop_downloads n obs (name_of e t) st1) as H1.
  destruct (main_loop e (name_of e t) st1 obs) as [st2 tr]. simpl in *.
  rewrite count_app. lia.
Qed.




End LegacyCache.


(** ** The players: reading back what was written *)

Section PlayerRoundTrips.
Import Player Mirror.
Context {V : Type} {HV : LibVLC V} {M : Type} {HM : LibMPV M}.

(** X6. The pause flag reads back as written. For VLC this needs libvlc to
    stop playing on [pause()] when it plays and to play on [play()] when it
    does not; for mpv it needs the native property to keep what is
    assigned. *)
Theorem pause_reads_back (b : bool) (p : VLCPlayer V) (q : MpvPlayer M) :
  (vlc_is_playing (vlc_native p) = true ->
   vlc_is_playing (vlc_pause (vlc_native p)) = false) ->
  (vlc_is_playing (vlc_native p) = false ->
   vlc_is_playing (vlc_play (vlc_native p)) = true) ->
  mpv_get_pause (mpv_set_pause b (mpv_native q)) = b ->
  fst (get_pause (set_pause b p)) = b /\
  fst (get_pause (set_pause b q)) = b.
Proof.
  intros Hpause Hplay Hmpv. split.
  - simpl. rewrite vlc_set_pause_native.
    destruct b, (vlc_is_playing (vlc_native p)) eqn:Hp; simpl;
      rewrite ?Hp, ?Hpause, ?Hplay; reflexivity.
  - simpl. exact Hmpv.
Qed.

(** X7. A position written to the VLC player reads back as written (given
    that [get_time] returns what [set_time] stored). The mpv player of this
    version reads back a thousandth of what was written: its setter seeks
    to [ms / 1000] seconds and its getter returns [playback_time] as it
    is. *)
Theorem position_reads_back (ms : Z) (p : VLCPlayer V) (q : MpvPlayer M) :
  vlc_get_time (vlc_set_time ms (vlc_native p)) = ms ->
  mpv_playback_time
    (mpv_seek (ms # 1000)
       (mpv_wait_for_property "seekable" (mpv_native q))) = Some (ms # 1000) ->
  fst (get_position (set_position ms p)) = inject_Z ms /\
  fst (get_position (set_position ms q)) = (ms # 1000).
Proof.
  intros Hvlc Hmpv. split; simpl.
  - rewrite Hvlc. reflexivity.
  - rewrite Hmpv. reflexivity.
Qed.

(** X8. A video started with [is_playing] is already in that state: the
    status change that repeats [is_playing] right after [start_video]
    makes the VLC player read [is_playing()] and call neither [pause()] nor
    [play()]. *)
Theorem start_then_same_status (url : string) (is_playing : bool)
    (w : window (VLCPlayer V)) :
  (forall (m : string) (v : V), vlc_is_playing (vlc_set_media m v) = false) ->
  (forall (m : string) (v : V),
     vlc_is_playing (vlc_play (vlc_set_media m v)) = true) ->
  let w1 := on_player (StartVideo url is_playing)
                      (start_video url is_playing) w in
  vlc_log (player (change_video_status is_playing w1)) =
    vlc_log (player w1) ++ [VlcIsPlaying] /\
  vlc_native (player (change_video_status is_playing w1)) =
    vlc_native (player w1).
Proof.
  intros Hmedia Hplay w1. subst w1. simpl.
  rewrite vlc_set_pause_log, vlc_set_pause_native.
  assert (vlc_is_playing
            (vlc_native (vlc_start_video url is_playing (player w)))
          = is_playing) as Hstate.
  { unfold vlc_start_video. destruct is_playing.
    - rewrite vlc_set_pause_native. simpl. rewrite Hmedia. simpl.
      apply Hplay.
    - simpl. apply Hmedia. }
  rewrite Hstate. destruct is_playing; simpl; split; reflexivity.
Qed.

End PlayerRoundTrips.

Section PlayerRoundTripWitnesses.
Import Player Mirror.

Lemma pause_reads_back_witness :
  fst (get_pause (set_pause true
                    (start_video "https://video/ab" true (new_vlc LINUX))))
    = true /\
  fst (get_pause (set_pause true new_mpv)) = true.
Proof.
  apply (@pause_reads_back vlc_double _ mpv_double _ true
           (start_video "https://video/ab" true (new_vlc LINUX)) new_mpv);
    reflexivity.
Defined.

Lemma position_reads_back_witness :
  fst (get_position (set_position 1500 (new_vlc LINUX))) = inject_Z 1500 /\
  fst (get_position (set_position 1500 new_mpv)) = (1500 # 1000).
Proof.
  apply (@position_reads_back vlc_double _ mpv_double _ 1500
           (new_vlc LINUX) new_mpv); reflexivity.
Defined.

Lemma start_then_same_status_witness :
  let w1 := on_player (StartVideo "https://video/ab" true)
              (start_video "https://video/ab" true)
              (new_window (new_vlc LINUX)) in
  vlc_log (player (change_video_status true w1)) =
    vlc_log (player w1) ++ [VlcIsPlaying] /\
  vlc_native (player (change_video_status true w1)) = vlc_native (player w1).
Proof.
  apply (@start_then_same_status vlc_double _ "https://video/ab" true
           (new_window (new_vlc LINUX))); reflexivity.
Defined.

End PlayerRoundTripWitnesses.

(** ** The command-line program without the DBus back end *)

Section SwspotifyLoop.
Import Track Player Mirror Swspotify.
Context {P : Type} {HP : PlayerBase P}.
Variable e : cli_env.
Variable lyrics : bool.

(** What one round adds to the trace. *)
Lemma swspotify_round_trace (t : track) (s : cli P) :
  exists added,
    cli_trace (final_state (play_videos_swspotify_round e lyrics t s)) =
      cli_trace s ++ added /\
    has_raised (play_videos_swspotify_round e lyrics t s) =
      negb (resolves e t) /\
    count is_get_url added = 1%nat /\
    count is_start_video added = (if resolves e t then 1 else 0)%nat /\
    count is_set_position added = 0%nat /\
    count is_get_position added = 0%nat /\
    count is_set_pause added = 0%nat /\
    count is_start_paused added = 0%nat.
Proof.
  unfold play_videos_swspotify_round, resolves.
  destruct (get_url e (artist t) (title t)) as [ex|url].
  - exists [GetUrl (artist t) (title t)]. simpl. auto 10.
  - exists ([GetUrl (artist t) (title t); StartVideo url true]
            ++ if lyrics then [Lyrics] else []).
    destruct lyrics; simpl; rewrite <- ?app_assoc; auto 10.
Qed.

(** X9. The loop never sets a position, never reads one, never pauses and
    never starts a video as paused: all it asks of the player is
    [start_video(url)], once per song it found a video for. *)
Theorem swspotify_only_starts_videos (songs : list track) :
  forall s : cli P,
    exists added,
      cli_trace (final_state (play_videos_swspotify_loop e lyrics songs s)) =
        cli_trace s ++ added /\
      count is_set_position added = 0%nat /\
      count is_get_position added = 0%nat /\
      count is_set_pause added = 0%nat /\
      count is_start_paused added = 0%nat /\
      (count is_start_video added <= count is_get_url added)%nat /\
      (count is_get_url added <= length songs)%nat.
Proof.
  induction songs as [|t songs IH]; intros s.
  - exists []. simpl. rewrite app_nil_r. repeat split; lia.
  - destruct (swspotify_round_trace t s)
      as (a1 & Htr & Hr & Hg & Hs & Hp & Hgp & Hsp & Hpa).
    simpl.
    destruct (play_videos_swspotify_round e lyrics t s) as [s1|ex s1];
      simpl in *.
    + destruct (IH s1) as (a2 & Htr2 & Hp2 & Hgp2 & Hsp2 & Hpa2 & Hsv2 & Hg2).
      exists (a1 ++ a2). rewrite Htr2, Htr, <- app_assoc.
      rewrite !count_app.
      destruct (resolves e t); repeat split; try lia; reflexivity.
    + exists a1. destruct (resolves e t); repeat split; try lia; assumption.
Qed.

(** X10. The first song without a video ends the loop: the exception
    leaves it after one video per earlier song, and the songs that follow
    are neither resolved nor played. *)
Theorem swspotify_stops_at_first_failure
    (pre post : list track) (t : track) (s : cli P) :
  Forall (fun t' => resolves e t' = true) pre ->
  resolves e t = false ->
  exists added,
    has_raised (play_videos_swspotify_loop e lyrics (pre ++ t :: post) s) = true /\
    cli_trace (final_state
                 (play_videos_swspotify_loop e lyrics (pre ++ t :: post) s)) =
      cli_trace s ++ added /\
    count is_start_video added = length pre /\
    count is_get_url added = S (length pre).
Proof.
  revert s. induction pre as [|t0 pre IH]; intros s Hpre Ht.
  - destruct (swspotify_round_trace t s)
      as (a1 & Htr & Hr & Hg & Hs & _).
    simpl. rewrite Ht in Hr, Hs.
    destruct (play_videos_swspotify_round e lyrics t s) as [s1|ex s1];
      simpl in *; [discriminate|].
    exists a1. auto.
  - inversion Hpre as [|? ? H0 Hrest]; subst.
    destruct (swspotify_round_trace t0 s)
      as (a1 & Htr & Hr & Hg & Hs & _).
    simpl. rewrite H0 in Hr, Hs.
    destruct (play_videos_swspotify_round e lyrics t0 s) as [s1|ex s1];
      simpl in *; [|discriminate].
    destruct (IH s1 Hrest Ht) as (a2 & Hraised & Htr2 & Hs2 & Hg2).
    exists (a1 ++ a2). rewrite Hraised, Htr2, Htr, <- app_assoc.
    rewrite !count_app. repeat split; try reflexivity; lia.
Qed.

End SwspotifyLoop.

Section SwspotifyBootstrap.
Import Track Player Mirror Swspotify Bootstrap Bootstrap.Cli.
Context {P : Type} {HP : PlayerBase P}.

Lemma wait_loop_never_true (env : conn_env) (attempts : Z) (fuel : nat) :
  (forall n, connect env n = NotReady) ->
  forall counter calls sleeps,
    fst (wait_loop env attempts fuel counter calls sleeps) <> Some true.
Proof.
  intros Hc. induction fuel as [|fuel IH]; intros counter calls sleeps;
    simpl; [discriminate|].
  destruct (counter <? attempts); [|discriminate].
  rewrite Hc. destruct (sleep env sleeps); [|discriminate].
  specialize (IH (counter + 1) (S calls) (S sleeps)).
  destruct (wait_loop env attempts fuel (counter + 1) (S calls) (S sleeps)).
  exact IH.
Qed.

(** X11. While [connect] keeps raising [ConnectionNotReady],
    [play_videos_swspotify] gives up after 30 attempts at most and returns
    with the player untouched and the resolver never asked, whether the
    waiting ended by time-out or by an interrupt. *)
Theorem swspotify_needs_connection
    (c : conn_env) (e : cli_env) (lyrics : bool)
    (songs : list track) (s : cli P) :
  (forall n, connect c n = NotReady) ->
  snd (play_videos_swspotify c e lyrics songs s) = Returned s /\
  (count is_cli_attempt (fst (play_videos_swspotify c e lyrics songs s))
   <= 30)%nat.
Proof.
  intros Hc. unfold play_videos_swspotify.
  pose proof (wait_loop_never_true c default_attempts
                (S (Z.to_nat default_attempts)) Hc 0 0%nat 0%nat) as Hnt.
  destruct (wait_loop_bounds c default_attempts
              (S (Z.to_nat default_attempts)) 0 0%nat 0%nat)
    as (b & tr & Hrun & _ & Hatt & _); [simpl; lia|].
  unfold Cli.wait_for_connection. rewrite Hrun in *. simpl in Hnt.
  destruct b; [congruence|]. simpl. split; [reflexivity|exact Hatt].
Qed.

End SwspotifyBootstrap.

Section SwspotifyWitnesses.
Import Track Player Mirror Swspotify Bootstrap Bootstrap.Cli.

Lemma swspotify_stops_at_first_failure_witness :
  let ab := {| artist := Some "A"; title := "B" |} in
  let ac := {| artist := Some "A"; title := "C" |} in
  exists added,
    has_raised (play_videos_swspotify_loop cli_all_but_one false
                  ([ab; ab] ++ ac :: [ab]) (new_cli new_mpv)) = true /\
    cli_trace (final_state
                 (play_videos_swspotify_loop cli_all_but_one false
                    ([ab; ab] ++ ac :: [ab]) (new_cli new_mpv))) =
      cli_trace (new_cli new_mpv) ++ added /\
    count is_start_video added = 2%nat /\
    count is_get_url added = 3%nat.
Proof.
  apply (@swspotify_stops_at_first_failure (MpvPlayer mpv_double) _
           cli_all_but_one false
           [{| artist := Some "A"; title := "B" |};
            {| artist := Some "A"; title := "B" |}]
           [{| artist := Some "A"; title := "B" |}]
           {| artist := Some "A"; title := "C" |} (new_cli new_mpv)).
  - repeat constructor.
  - reflexivity.
Defined.

Lemma swspotify_needs_connection_witness :
  snd (play_videos_swspotify
         {| connect := never_ready; sleep := interrupted_at 3 |}
         cli_found false [{| artist := Some "A"; title := "B" |}]
         (new_cli new_mpv)) = Returned (new_cli new_mpv) /\
  (count is_cli_attempt
     (fst (play_videos_swspotify
             {| connect := never_ready; sleep := interrupted_at 3 |}
             cli_found false [{| artist := Some "A"; title := "B" |}]
             (new_cli new_mpv))) <= 30)%nat.
Proof.
  apply (@swspotify_needs_connection (MpvPlayer mpv_double) _
           {| connect := never_ready; sleep := interrupted_at 3 |}).
  intros n. reflexivity.
Defined.

End SwspotifyWitnesses.

(** ** The window: connection slot and signals together *)

Section MainWindowSlots.
Import Track Player Mirror Bootstrap MainWindow.
Context {P : Type} {HP : PlayerBase P}.
Variable conn_fn : nat -> conn_result.
Variable youtube_get_url : option string -> string -> exn + string.
Variable lyrics : bool.

(** What [play_video] adds to the trace: one question to the resolver,
    and player actions only when it was answered. *)
Lemma play_video_trace (a : api) (v : window P) :
  exists added,
    trace (final_state (play_video youtube_get_url lyrics a v)) =
      trace v ++ added /\
    count is_get_url added = 1%nat /\
    (has_raised (play_video youtube_get_url lyrics a v) = true ->
     count is_player_action added = 0%nat /\
     player (final_state (play_video youtube_get_url lyrics a v)) = player v).
Proof.
  unfold play_video.
  destruct (youtube_get_url (artist (api_track a)) (title (api_track a)))
    as [ex|url].
  - eexists. simpl. split; [reflexivity|]. auto.
  - destruct (api_position a), lyrics; simpl;
      rewrite <- ?app_assoc; eexists; (split; [reflexivity|]);
      (split; [reflexivity|discriminate]).
Qed.

(** Signals that are not connected reach nothing. *)
Lemma deliver_all_unconnected (sigs : list signal) (mw : main_window P) :
  signals_connected mw = false ->
  deliver_all youtube_get_url lyrics sigs mw = (mw, []).
Proof.
  intros Hoff. induction sigs as [|sig sigs IH]; [reflexivity|].
  simpl. unfold deliver. rewrite Hoff. exact IH.
Qed.

(** X13. When a connection attempt succeeds but no video is found for the
    first song, the exception leaves the slot with the timer stopped and
    deleted and the signals not connected: the counter has not moved, the
    player was not touched, no further attempt is made and no signal sent
    afterwards reaches the player. *)
Theorem first_video_failure_strands_window
    (interval : option Z) (a : api) (mw : main_window P) (ex : exn) :
  conn_fn (Gui.conn_calls (conn mw)) = Connected ->
  youtube_get_url (artist (api_track a)) (title (api_track a)) = inl ex ->
  signals_connected mw = false ->
  exists mw',
    fst (MainWindow.wait_for_connection conn_fn youtube_get_url lyrics
           interval a mw) = Raised ex mw' /\
    count Gui.is_gui_handoff
      (snd (MainWindow.wait_for_connection conn_fn youtube_get_url lyrics
              interval a mw)) = 0%nat /\
    Gui.conn_timer (conn mw') = Gui.TimerDeleted /\
    Gui.conn_counter (conn mw') = Gui.conn_counter (conn mw) /\
    signals_connected mw' = false /\
    player (view mw') = player (view mw) /\
    count is_player_action (trace (view mw')) =
      count is_player_action (trace (view mw)) /\
    (forall fuel, Gui.run_timer conn_fn fuel (conn mw') = (conn mw', [])) /\
    (forall sigs, deliver_all youtube_get_url lyrics sigs mw' = (mw', [])).
Proof.
  intros Hconn Hfail Hoff.
  unfold MainWindow.wait_for_connection.
  rewrite Hconn. unfold play_video. rewrite Hfail.
  eexists. split; [reflexivity|]. cbn [fst snd conn view signals_connected
    Gui.conn_timer Gui.conn_counter player trace on_player].
  repeat split.
  - rewrite count_app. destruct (Gui.conn_counter (conn mw) =? 1); reflexivity.
  - exact Hoff.
  - rewrite count_app. simpl. lia.
  - intros fuel. apply run_timer_inactive. simpl. discriminate.
  - intros sigs. apply deliver_all_unconnected. exact Hoff.
Qed.

(** X14. Once the signals are connected every new-song signal asks the
    resolver exactly once, also after an earlier song had no video, and
    the status and position signals never ask it; at most one exception is
    reported per new-song signal. *)
Theorem signals_resolve_each_song (sigs : list signal) :
  forall mw : main_window P,
    signals_connected mw = true ->
    let mw' := fst (deliver_all youtube_get_url lyrics sigs mw) in
    let exs := snd (deliver_all youtube_get_url lyrics sigs mw) in
    exists added,
      trace (view mw') = trace (view mw) ++ added /\
      count is_get_url added = count is_new_song sigs /\
      (length exs <= count is_new_song sigs)%nat /\
      signals_connected mw' = true.
Proof.
  induction sigs as [|sig sigs IH]; intros mw Hon.
  - exists []. simpl. rewrite app_nil_r. auto.
  - simpl. unfold deliver. rewrite Hon. destruct sig as [a|ms|b].
    + destruct (play_video_trace a (view mw)) as (a1 & Htr & Hg & _).
      destruct (play_video youtube_get_url lyrics a (view mw)) as [v|ex v];
        simpl in Htr.
      * match goal with
        | |- context [deliver_all _ _ sigs ?m] =>
            destruct (IH m eq_refl) as (a2 & Htr2 & Hg2 & Hex & Hon2);
            destruct (deliver_all youtube_get_url lyrics sigs m) as [m2 exs]
        end.
        simpl in *. exists (a1 ++ a2).
        rewrite Htr2, Htr, <- app_assoc, count_app.
        repeat split; try assumption; lia.
      * match goal with
        | |- context [deliver_all _ _ sigs ?m] =>
            destruct (IH m eq_refl) as (a2 & Htr2 & Hg2 & Hex & Hon2);
            destruct (deliver_all youtube_get_url lyrics sigs m) as [m2 exs]
        end.
        simpl in *. exists (a1 ++ a2).
        rewrite Htr2, Htr, <- app_assoc, count_app.
        repeat split; try assumption; lia.
    + match goal with
      | |- context [deliver_all _ _ sigs ?m] =>
          destruct (IH m eq_refl) as (a2 & Htr2 & Hg2 & Hex & Hon2);
          destruct (deliver_all youtube_get_url lyrics sigs m) as [m2 exs]
      end.
      simpl in *. exists (SetPosition ms :: a2).
      rewrite Htr2, <- app_assoc. simpl.
      repeat split; try assumption; lia.
    + match goal with
      | |- context [deliver_all _ _ sigs ?m] =>
          destruct (IH m eq_refl) as (a2 & Htr2 & Hg2 & Hex & Hon2);
          destruct (deliver_all youtube_get_url lyrics sigs m) as [m2 exs]
      end.
      simpl in *. exists (SetPause (negb b) :: a2).
      rewrite Htr2, <- app_assoc. simpl.
      repeat split; try assumption; lia.
Qed.

End MainWindowSlots.

Section MainWindowWitnesses.
Import Track Player Mirror Bootstrap MainWindow.

Lemma first_video_failure_strands_window_witness :
  let mw := MainWindow.start new_mpv in
  exists mw',
    fst (MainWindow.wait_for_connection (ready_after 0) youtube_fails false
           (Some 1000) song mw) = Raised DownloadError mw' /\
    count Gui.is_gui_handoff
      (snd (MainWindow.wait_for_connection (ready_after 0) youtube_fails false
              (Some 1000) song mw)) = 0%nat /\
    Gui.conn_timer (conn mw') = Gui.TimerDeleted /\
    Gui.conn_counter (conn mw') = Gui.conn_counter (conn mw) /\
    signals_connected mw' = false /\
    player (view mw') = player (view mw) /\
    count is_player_action (trace (view mw')) =
      count is_player_action (trace (view mw)) /\
    (forall fuel,
       Gui.run_timer (ready_after 0) fuel (conn mw') = (conn mw', [])) /\
    (forall sigs, deliver_all youtube_fails false sigs mw' = (mw', [])).
Proof.
  apply (@first_video_failure_strands_window (MpvPlayer mpv_double) _
           (ready_after 0) youtube_fails false (Some 1000) song
           (MainWindow.start new_mpv) DownloadError); reflexivity.
Defined.

Lemma signals_resolve_each_song_witness :
  let mw := final_state
              (fst (MainWindow.wait_for_connection (ready_after 0)
                      youtube_found false (Some 1000) song
                      (MainWindow.start new_mpv))) in
  let sigs := [NewSong song; StatusSignal false; NewSong paused_song] in
  exists added,
    trace (view (fst (deliver_all youtube_found false sigs mw))) =
      trace (view mw) ++ added /\
    count is_get_url added = 2%nat /\
    (length (snd (deliver_all youtube_found false sigs mw)) <= 2)%nat /\
    signals_connected (fst (deliver_all youtube_found false sigs mw)) = true.
Proof.
  apply (@signals_resolve_each_song (MpvPlayer mpv_double) _
           youtube_found false
           [NewSong song; StatusSignal false; NewSong paused_song]).
  reflexivity.
Defined.

End MainWindowWitnesses.

(** ** The build script *)

Section BuildScript.
Import Build.

Lemma has_slash_app (a b : string) :
  has_slash (a +:+ b) = has_slash a || has_slash b.
Proof.
  induction a as [|c a IH]; simpl; [reflexivity|].
  rewrite IH. destruct (Ascii.eqb c slash); reflexivity.
Qed.

Lemma starts_with_slash_has_slash (s : string) :
  starts_with_slash s = true -> has_slash s = true.
Proof.
  destruct s as [|c s]; simpl; [discriminate|].
  intros ->. reflexivity.
Qed.

Lemma ends_with_slash_has_slash (s : string) :
  ends_with_slash s = true -> has_slash s = true.
Proof.
  induction s as [|c s IH]; simpl; [discriminate|].
  destruct s as [|c' s].
  - intros ->. reflexivity.
  - intros H. rewrite (IH H). apply orb_true_r.
Qed.

Lemma ignored_files_have_no_slash (s : string) :
  has_slash s = true -> in_list s IGNORED_FILES = false.
Proof.
  intros Hs. unfold in_list, IGNORED_FILES. simpl.
  destruct (String.eqb_spec s ".git") as [->|_]; [discriminate Hs|].
  destruct (String.eqb_spec s ".venv") as [->|_]; [discriminate Hs|].
  destruct (String.eqb_spec s "target") as [->|_]; [discriminate Hs|].
  reflexivity.
Qed.

Lemma path_join_has_slash (path filename : string) :
  path <> EmptyString -> has_slash (path_join path filename) = true.
Proof.
  intros Hne. unfold path_join.
  destruct (starts_with_slash filename) eqn:Hstart.
  - apply starts_with_slash_has_slash. exact Hstart.
  - destruct (String.eqb_spec path EmptyString) as [Heq|_]; [congruence|].
    simpl. destruct (ends_with_slash path) eqn:Hend.
    + rewrite has_slash_app, (ends_with_slash_has_slash _ Hend). reflexivity.
    + rewrite !has_slash_app. simpl. rewrite orb_true_r. reflexivity.
Qed.

(** X15. [get_ignored] compares the joined path with the bare names of
    [IGNORED_FILES]: for every directory path that is not empty, "." among
    them, nothing is ignored; only with the empty path are the listed
    names returned. *)
Theorem get_ignored_needs_empty_path :
  (forall (path : string) (filenames : list string),
     path <> EmptyString -> get_ignored path filenames = []) /\
  (forall filenames : list string,
     get_ignored EmptyString filenames =
     List.filter (fun f => in_list f IGNORED_FILES) filenames).
Proof.
  split.
  - intros path filenames Hne.
    induction filenames as [|f fs IH]; cbn [get_ignored]; [reflexivity|].
    rewrite (ignored_files_have_no_slash _ (path_join_has_slash path f Hne)).
    exact IH.
  - intros filenames.
    induction filenames as [|f fs IH]; cbn [get_ignored List.filter];
      [reflexivity|].
    assert (path_join EmptyString f = f) as ->.
    { unfold path_join. destruct (starts_with_slash f); reflexivity. }
    rewrite IH. reflexivity.
Qed.

Lemma drop_last_snoc (s : string) (c : Ascii.ascii) :
  drop_last (s +:+ String c EmptyString) = s.
Proof.
  induction s as [|c' s IH]; simpl; [reflexivity|].
  rewrite IH. destruct s; reflexivity.
Qed.

Lemma unquote_quoted (v : string) :
  drop_first (drop_last (quote +:+ v +:+ quote)) = v.
Proof.
  unfold quote.
  change (String (Ascii.ascii_of_nat 34) EmptyString
          +:+ v +:+ String (Ascii.ascii_of_nat 34) EmptyString)
    with (String (Ascii.ascii_of_nat 34)
            (v +:+ String (Ascii.ascii_of_nat 34) EmptyString)).
  pose proof (drop_last_snoc v (Ascii.ascii_of_nat 34)) as Hv.
  destruct (v +:+ String (Ascii.ascii_of_nat 34) EmptyString) as [|c r] eqn:Hvq.
  - destruct v; discriminate Hvq.
  - simpl. simpl in Hv. rewrite Hv. reflexivity.
Qed.

(** X16. [get_version] reads the first line whose first word is "version":
    after lines that do not start with that word, a line
    [version = "v"] gives [v] without its quotes, whatever follows; a
    version line of fewer than three words raises [IndexError] even if a
    good one follows; and without any version line the exception of the
    last statement is raised. *)
Theorem get_version_first_line
    (split : string -> list string) (pre : list string) :
  Forall (fun l => head (split l) <> Some "version") pre ->
  get_version split pre = inl VersionNotFound /\
  (forall (line eq v : string) (more : list string) (post : list string),
     split line = "version" :: eq :: (quote +:+ v +:+ quote) :: more ->
     get_version split (pre ++ line :: post) = inr v) /\
  (forall (line : string) (toks : list string) (post : list string),
     split line = "version" :: toks ->
     (length toks < 2)%nat ->
     get_version split (pre ++ line :: post) = inl IndexError).
Proof.
  intros Hpre.
  assert (forall rest, get_version split (pre ++ rest) = get_version split rest)
    as Hskip.
  { intros rest. induction Hpre as [|l pre Hl _ IH]; [reflexivity|].
    simpl. destruct (split l) as [|tok0 toks]; [exact IH|].
    destruct (String.eqb_spec tok0 "version") as [->|_]; [|exact IH].
    simpl in Hl. congruence. }
  split; [|split].
  - rewrite <- (app_nil_r pre). rewrite Hskip. reflexivity.
  - intros line eq v more post Hline. rewrite Hskip. cbn [get_version].
    rewrite Hline. rewrite String.eqb_refl, unquote_quoted. reflexivity.
  - intros line toks post Hline Hlen. rewrite Hskip. cbn [get_version].
    rewrite Hline. rewrite String.eqb_refl.
    destruct toks as [|t1 [|t2 toks]]; simpl in Hlen; try reflexivity; lia.
Qed.

Lemma suffix_of_supported_os (os : string) :
  SUFFIXES !! os =
  if String.eqb os "Linux" then Some "linux"
  else if String.eqb os "Windows" then Some "win32"
  else if String.eqb os "Darwin" then Some "macos"
  else None.
Proof.
  unfold SUFFIXES.
  destruct (String.eqb_spec os "Linux") as [->|H1]; [reflexivity|].
  rewrite lookup_insert_ne by congruence.
  destruct (String.eqb_spec os "Windows") as [->|H2]; [reflexivity|].
  rewrite lookup_insert_ne by congruence.
  destruct (String.eqb_spec os "Darwin") as [->|H3]; [reflexivity|].
  rewrite lookup_insert_ne by congruence.
  apply lookup_empty.
Qed.

(** X17. [SUFFIXES] has an entry for exactly the systems of [ALL_OS]: once
    the version is found, [format_release_name] returns
    "vidify-<version>_<suffix>_<machine>" on every supported system and
    raises [KeyError] on any other. *)
Theorem release_name_on_supported_os
    (split : string -> list string) (lines : list string)
    (os machine version : string) :
  get_version split lines = inr version ->
  if in_list os ALL_OS then
    exists suffix,
      SUFFIXES !! os = Some suffix /\
      format_release_name split lines os machine =
        inr ("vidify-" +:+ version +:+ "_" +:+ suffix +:+ "_" +:+ machine)
  else
    SUFFIXES !! os = None /\
    format_release_name split lines os machine = inl (KeyError os).
Proof.
  intros Hv. unfold format_release_name. rewrite Hv.
  rewrite suffix_of_supported_os. unfold in_list, ALL_OS. simpl.
  destruct (String.eqb os "Linux"); simpl; [eauto|].
  destruct (String.eqb os "Windows"); simpl; [eauto|].
  destruct (String.eqb os "Darwin"); simpl; [eauto|].
  auto.
Qed.

(** X18. [filter_os_args] keeps the order of the dictionary and returns
    exactly the keys whose list of systems holds the current one. *)
Theorem filter_os_args_keeps_order
    (cur_os : string) (args : list (string * list string)) :
  sublist (filter_os_args cur_os args) (map fst args) /\
  (forall val : string,
     val ∈ filter_os_args cur_os args <->
     exists supp_os, (val, supp_os) ∈ args /\ in_list cur_os supp_os = true).
Proof.
  induction args as [|[val0 supp0] args [IHs IHm]]; simpl.
  - split; [constructor|].
    intros val. split.
    + intros H. inversion H.
    + intros (supp & H & _). inversion H.
  - destruct (in_list cur_os supp0) eqn:Hin.
    + split; [constructor; exact IHs|].
      intros val. rewrite elem_of_cons, IHm. split.
      * intros [->|(supp & H & Hs)].
        -- exists supp0. split; [left|exact Hin].
        -- exists supp. split; [right; exact H|exact Hs].
      * intros (supp & H & Hs). apply elem_of_cons in H as [Heq|H].
        -- left. congruence.
        -- right. eauto.
    + split; [constructor; exact IHs|].
      intros val. rewrite IHm. split.
      * intros (supp & H & Hs). exists supp. split; [right; exact H|exact Hs].
      * intros (supp & H & Hs). apply elem_of_cons in H as [Heq|H].
        -- inversion Heq; subst. congruence.
        -- eauto.
Qed.

End BuildScript.

Section BuildWitnesses.
Import Build.

Lemma get_ignored_needs_empty_path_witness :
  get_ignored "." [".git"; "src"; ".venv"; "target"] = [].
Proof.
  apply (proj1 get_ignored_needs_empty_path). discriminate.
Defined.

Lemma get_version_first_line_witness :
  get_version split_ascii ["[package]"] = inl VersionNotFound /\
  get_version split_ascii cargo_lines = inr "2.2.6" /\
  get_version split_ascii
    (["[package]"] ++ "version" :: ["version = " +:+ quote +:+ "1" +:+ quote])
    = inl IndexError.
Proof.
  destruct (get_version_first_line split_ascii ["[package]"])
    as (H1 & H2 & H3).
  - repeat constructor. discriminate.
  - split; [exact H1|]. split.
    + pose proof (get_version_first_line split_ascii
                    ["[package]"; "name = " +:+ quote +:+ "vidify" +:+ quote])
        as H.
      destruct H as (_ & H & _).
      * repeat constructor; discriminate.
      * apply (H ("version = " +:+ quote +:+ "2.2.6" +:+ quote) "=" "2.2.6"
                 [] ["edition = 2018"]).
        reflexivity.
    + apply (H3 "version" []); [reflexivity|simpl; lia].
Defined.

Lemma release_name_on_supported_os_witness :
  exists suffix,
    SUFFIXES !! "Darwin" = Some suffix /\
    format_release_name split_ascii cargo_lines "Darwin" "x86_64" =
      inr ("vidify-" +:+ "2.2.6" +:+ "_" +:+ suffix +:+ "_" +:+ "x86_64").
Proof.
  apply (release_name_on_supported_os split_ascii cargo_lines
           "Darwin" "x86_64" "2.2.6").
  reflexivity.
Defined.

End BuildWitnesses.

(** ** The Linux round: a video that never starts *)

Section LinuxRoundHangs.
Import Track Player Mirror.
Context {P : Type} {HP : PlayerBase P}.

Lemma wait_for_video_never_ends (fuel : nat) :
  forall s : cli P,
    (forall i, Qeq_bool (fst (get_position (after_reads i (cli_player s))))
                        (inject_Z 0) = true) ->
    wait_for_video fuel s = None.
Proof.
  induction fuel as [|fuel IH]; intros s Hzero; [reflexivity|].
  simpl. pose proof (Hzero 0%nat) as H0. simpl in H0.
  destruct (get_position (cli_player s)) as [pos p'] eqn:Hpos.
  simpl in H0. rewrite H0. apply IH.
  intros i. specialize (Hzero (S i)). simpl in Hzero.
  rewrite Hpos in Hzero. exact Hzero.
Qed.

(** X19. When the song is playing and the player keeps reporting position
    0, the round of the Linux loop never gets past its polling loop: no
    number of readings is enough, so no offset is set and
    [spotify.wait()] is never reached. *)
Theorem linux_round_hangs_at_position_zero
    (e : cli_env) (lyrics : bool) (a : api) (url : string) (s : cli P) :
  get_url e (artist (api_track a)) (title (api_track a)) = inr url ->
  api_is_playing a = true ->
  (forall i,
     Qeq_bool (fst (get_position
                      (after_reads i (start_video url true (cli_player s)))))
              (inject_Z 0) = true) ->
  forall fuel, play_videos_linux_round e lyrics fuel a s = None.
Proof.
  intros Hurl Hplaying Hzero fuel.
  unfold play_videos_linux_round. simpl. rewrite Hurl, Hplaying.
  rewrite wait_for_video_never_ends; [reflexivity|exact Hzero].
Qed.

End LinuxRoundHangs.

Section LinuxRoundHangsWitness.
Import Track Player Mirror.

Lemma stuck_player_reads (i : nat) :
  after_reads i {| script := []; seeks := []; paused := false |} =
  {| script := []; seeks := []; paused := false |}.
Proof. induction i as [|i IH]; [reflexivity|exact IH]. Defined.

Lemma linux_round_hangs_at_position_zero_witness :
  play_videos_linux_round cli_found false 50 song
    (new_cli {| script := []; seeks := []; paused := true |}) = None.
Proof.
  refine (@linux_round_hangs_at_position_zero scripted _ cli_found false song
            "https://video/ab"
            (new_cli {| script := []; seeks := []; paused := true |})
            _ _ _ 50%nat).
  - reflexivity.
  - reflexivity.
  - intros i. simpl. rewrite stuck_player_reads. reflexivity.
Defined.

End LinuxRoundHangsWitness.
